(** * LoadLoad: a round-robin reverse proxy with sticky sessions

    Shallow embedding of [loadbalancer.py] and the properties of its
    selection policy, affinity table, health prober and proxy dispatcher.

    Python objects are shared by reference: the pool and the sticky-session
    table both point at the same [Server] objects, and the health prober
    flips [is_healthy] in place.  The embedding therefore keeps an object
    store ([heap]) and lets the pool and the table hold locations. *)

From Stdlib Require Import Strings.Ascii Strings.Byte.
From stdpp Require Import base list strings gmap functions pretty.

Open Scope Z_scope.

(** ** Strings *)

(** [str.lower()] on header names.  Header names are ASCII tokens, so only
    the letters [A]..[Z] move. *)
Definition ascii_lower (c : ascii) : ascii :=
  let n := nat_of_ascii c in
  if ((65 <=? n)%nat && (n <=? 90)%nat)%bool then ascii_of_nat (n + 32) else c.

Fixpoint lower (s : string) : string :=
  match s with
  | EmptyString => EmptyString
  | String c s' => String (ascii_lower c) (lower s')
  end.

(** Truth value of a [str]: every string but the empty one. *)
Definition truthy (s : string) : bool :=
  match s with
  | EmptyString => false
  | String _ _ => true
  end.

(** ** Backends *)

(** [@dataclass class Server]. *)
Record Server := mkServer {
  host : string;
  port : Z;
  is_healthy : bool
}.

(** [Server.url]: [f"http://{self.host}:{self.port}"]. *)
Definition url (s : Server) : string :=
  "http://" +:+ host s +:+ ":" +:+ pretty (port s).

(** [server.is_healthy = b]: the only field that is ever assigned. *)
Definition set_is_healthy (b : bool) (s : Server) : Server :=
  {| host := host s; port := port s; is_healthy := b |}.

(** Object identity of a [Server]. *)
Definition loc := nat.

(** ** Messages exchanged with the HTTP framework *)

(** Exceptions that derive from [Exception], the class both [except]
    clauses catch. *)
Inductive exn :=
  | TimeoutError
  | ClientConnectionError
  | ClientPayloadError
  | AttributeError
  | RuntimeError.

Inductive result (A : Type) :=
  | Returns (a : A)
  | Raises (e : exn).
Arguments Returns {A} a.
Arguments Raises {A} e.

(** The part of [web.Request] the balancer reads.  [req_headers] is a
    multidict: [items()] yields one pair per header line, so a name may
    occur more than once.  [req_read] is what [await request.read()]
    gives. *)
Record Request := mkRequest {
  req_method : string;
  req_path_qs : string;
  req_headers : list (string * string);
  req_cookies : gmap string string;
  req_remote : option string;
  req_body_exists : bool;
  req_read : result (list Byte.byte)
}.

(** The keyword arguments of one [ClientSession.request] call
    ([ClientSession.get] is [request] with method [GET]). *)
Record OutRequest := mkOutRequest {
  out_method : string;
  out_url : string;
  out_headers : option (gmap string string);
  out_data : option (list Byte.byte);
  out_timeout : option Z
}.

(** The part of [aiohttp.ClientResponse] the balancer reads; [cr_headers]
    is a case-insensitive multidict. *)
Record ClientResponse := mkClientResponse {
  cr_status : Z;
  cr_headers : list (string * string);
  cr_read : result (list Byte.byte)
}.

(** The arguments [web.Response] is built from. *)
Record Response := mkResponse {
  resp_text : option string;
  resp_body : option (list Byte.byte);
  resp_status : Z;
  resp_headers : option (gmap string string)
}.

(** The [ClientSession] handle; [close()] only flips [closed]. *)
Record ClientSession := mkClientSession {
  closed : bool
}.

(** What the network answers to an outbound call, at the time it is made. *)
Definition network := OutRequest → result ClientResponse.

(** ** The balancer *)

(** [class LoadLoad].  [heap] is the object store the references point
    into. *)
Record LoadLoad := mkLoadLoad {
  heap : loc → Server;
  servers : list loc;
  current_index : Z;
  sticky_sessions : gmap string loc;
  session : option ClientSession
}.

Definition set_heap (h : loc → Server) (lb : LoadLoad) : LoadLoad :=
  {| heap := h; servers := servers lb; current_index := current_index lb;
     sticky_sessions := sticky_sessions lb; session := session lb |}.

Definition set_current_index (i : Z) (lb : LoadLoad) : LoadLoad :=
  {| heap := heap lb; servers := servers lb; current_index := i;
     sticky_sessions := sticky_sessions lb; session := session lb |}.

Definition set_sticky_sessions (t : gmap string loc) (lb : LoadLoad) : LoadLoad :=
  {| heap := heap lb; servers := servers lb; current_index := current_index lb;
     sticky_sessions := t; session := session lb |}.

Definition set_session (s : option ClientSession) (lb : LoadLoad) : LoadLoad :=
  {| heap := heap lb; servers := servers lb; current_index := current_index lb;
     sticky_sessions := sticky_sessions lb; session := s |}.

(** [LoadLoad.__init__]. *)
Definition __init__ (h : loc → Server) (pool : list loc) : LoadLoad :=
  {| heap := h; servers := pool; current_index := 0;
     sticky_sessions := ∅; session := None |}.

(** [LoadLoad.start], without the prober task it spawns. *)
Definition start (lb : LoadLoad) : LoadLoad :=
  set_session (Some {| closed := false |}) lb.

(** [LoadLoad.stop]. *)
Definition stop (lb : LoadLoad) : LoadLoad :=
  match session lb with
  | Some _ => set_session (Some {| closed := true |}) lb
  | None => lb
  end.

(** [request.cookies.get('session_id')], else [request.remote]. *)
Definition _get_session_id (request : Request) : option string :=
  match req_cookies request !! "session_id" with
  | Some session_id => if truthy session_id then Some session_id else req_remote request
  | None => req_remote request
  end.

(** [[s for s in self.servers if s.is_healthy]]. *)
Definition healthy_servers (lb : LoadLoad) : list loc :=
  filter (λ s, is_healthy (heap lb s) = true) (servers lb).

(** [LoadLoad._round_robin].  The index [current_index % len] is always
    inside the list, so the head passed to [nth] as default is never
    returned for want of an element. *)
Definition _round_robin (lb : LoadLoad) : option loc * LoadLoad :=
  match healthy_servers lb with
  | [] => (None, lb)
  | (s0 :: _) as hs =>
      let server :=
        nth (Z.to_nat (current_index lb `mod` Z.of_nat (length hs))) hs s0 in
      (Some server, set_current_index (current_index lb + 1) lb)
  end.

(** [LoadLoad._get_server].  A [Server] object is always truthy, so
    [if server:] tests for [None]. *)
Definition _get_server (lb : LoadLoad) (session_id : string) : option loc * LoadLoad :=
  let assign (lb : LoadLoad) :=
    match _round_robin lb with
    | (Some server, lb') =>
        (Some server,
         set_sticky_sessions (<[session_id := server]> (sticky_sessions lb')) lb')
    | (None, lb') => (None, lb')
    end in
  match sticky_sessions lb !! session_id with
  | Some server =>
      if is_healthy (heap lb server) then (Some server, lb)
      else assign (set_sticky_sessions (delete session_id (sticky_sessions lb)) lb)
  | None => assign lb
  end.

(** [n] consecutive calls of [_round_robin], with the results in call
    order. *)
Fixpoint round_robin_n (n : nat) (lb : LoadLoad) : list (option loc) * LoadLoad :=
  match n with
  | O => ([], lb)
  | S n' =>
      let '(r, lb1) := _round_robin lb in
      let '(rs, lb2) := round_robin_n n' lb1 in
      (r :: rs, lb2)
  end.

(** How many of the results of a series of selections are the backend
    [s]. *)
Definition times_selected (s : loc) (results : list (option loc)) : nat :=
  length (filter (λ r, r = Some s) results).

(** ** Outbound calls *)

(** A computation that may raise and that logs the outbound calls it
    issued, in order. *)
Definition io (A : Type) : Type := (result A * list OutRequest)%type.

Definition io_ret {A} (a : A) : io A := (Returns a, []).

Definition io_lift {A} (r : result A) : io A := (r, []).

Definition io_bind {A B} (m : io A) (k : A → io B) : io B :=
  match m with
  | (Returns a, calls) => let '(r, calls') := k a in (r, calls ++ calls')
  | (Raises e, calls) => (Raises e, calls)
  end.

Notation "x <~ m ;; k" := (io_bind m (λ x, k))
  (at level 20, m at level 99, k at level 200).

(** [self.session.request(...)] entered with [async with]: on [None] the
    attribute lookup fails, a closed session refuses the call, and an open
    one puts the request on the wire. *)
Definition session_request (net : network) (s : option ClientSession)
    (out : OutRequest) : io ClientResponse :=
  match s with
  | None => (Raises AttributeError, [])
  | Some cs => if closed cs then (Raises RuntimeError, []) else (net out, [out])
  end.

#[global] Instance loc_eq_dec : EqDecision loc := Nat.eq_dec.

(** A success status code as HTTP defines it, the class 2xx: the reading
    of the specification's words that the prober is compared with. *)
Definition success_status (status : Z) : bool :=
  (200 <=? status) && (status <? 300).

(** [self.session.get(f"{server.url}/health", timeout=5)]. *)
Definition health_probe (s : Server) : OutRequest :=
  {| out_method := "GET"; out_url := url s +:+ "/health";
     out_headers := None; out_data := None; out_timeout := Some 5 |}.

(** [LoadLoad._check_health]: the flag becomes [response.status == 200],
    or [False] when anything was raised. *)
Definition _check_health (net : network) (lb : LoadLoad) (server : loc)
    : LoadLoad * list OutRequest :=
  let '(r, calls) := session_request net (session lb) (health_probe (heap lb server)) in
  let flag :=
    match r with
    | Returns response => bool_decide (cr_status response = 200)
    | Raises _ => false
    end in
  (set_heap (<[server := set_is_healthy flag (heap lb server)]> (heap lb)) lb,
   calls).

(** [for server in pool: await self._check_health(server)]. *)
Fixpoint check_all (net : network) (lb : LoadLoad) (pool : list loc)
    : LoadLoad * list OutRequest :=
  match pool with
  | [] => (lb, [])
  | server :: pool' =>
      let '(lb1, calls1) := _check_health net lb server in
      let '(lb2, calls2) := check_all net lb1 pool' in
      (lb2, calls1 ++ calls2)
  end.

(** One pass of the loop in [_health_check_loop], between two sleeps. *)
Definition health_check_pass (net : network) (lb : LoadLoad)
    : LoadLoad * list OutRequest :=
  check_all net lb (servers lb).

(** ** Request handling *)

(** One round of the dict comprehension below: [d[k] = v] unless
    [k.lower() == 'host']. *)
Definition keep_header (d : gmap string string) (kv : string * string)
    : gmap string string :=
  if bool_decide (lower kv.1 ≠ "host") then <[kv.1 := kv.2]> d else d.

(** [{k: v for k, v in request.headers.items() if k.lower() != 'host'}]:
    a later item overwrites an earlier one with the same key. *)
Definition forward_headers (items : list (string * string)) : gmap string string :=
  foldl keep_header ∅ items.

(** The header lines a dictionary built from a case-insensitive multidict
    keeps: for every name, compared up to case, the first line received
    under it, with its spelling and its value. *)
Fixpoint first_per_name (md : list (string * string)) : list (string * string) :=
  match md with
  | [] => []
  | (k, v) :: md' =>
      (k, v) :: filter (λ kv, lower kv.1 ≠ lower k) (first_per_name md')
  end.

(** [dict(response.headers)]: one entry per header name up to case. *)
Definition dict_of_headers (md : list (string * string)) : gmap string string :=
  list_to_map (first_per_name md).

Definition no_servers_available : Response :=
  {| resp_text := Some "No servers available"; resp_body := None;
     resp_status := 503; resp_headers := None |}.

Definition backend_error : Response :=
  {| resp_text := Some "Backend error"; resp_body := None;
     resp_status := 502; resp_headers := None |}.

(** Lines 81-86 of [handle_request]: affinity lookup for a truthy session
    id, plain round robin otherwise. *)
Definition select_server (lb : LoadLoad) (request : Request) : option loc * LoadLoad :=
  match _get_session_id request with
  | Some session_id =>
      if truthy session_id then _get_server lb session_id else _round_robin lb
  | None => _round_robin lb
  end.

(** [await request.read() if request.body_exists else None]. *)
Definition request_data (request : Request) : result (option (list Byte.byte)) :=
  if req_body_exists request then
    match req_read request with
    | Returns b => Returns (Some b)
    | Raises e => Raises e
    end
  else Returns None.

(** The arguments of the proxied call, lines 93-96. *)
Definition outbound (s : Server) (request : Request)
    (data : option (list Byte.byte)) : OutRequest :=
  {| out_method := req_method request;
     out_url := url s +:+ req_path_qs request;
     out_headers := Some (forward_headers (req_headers request));
     out_data := data;
     out_timeout := None |}.

(** The body of the [try] block, lines 92-103. *)
Definition proxy (net : network) (lb : LoadLoad) (server : loc)
    (request : Request) : io Response :=
  match session lb with
  | None => (Raises AttributeError, [])
  | Some _ =>
      data <~ io_lift (request_data request) ;;
      response <~ session_request net (session lb)
                    (outbound (heap lb server) request data) ;;
      body <~ io_lift (cr_read response) ;;
      io_ret {| resp_text := None; resp_body := Some body;
                resp_status := cr_status response;
                resp_headers := Some (dict_of_headers (cr_headers response)) |}
  end.

(** [LoadLoad.handle_request]: the response, the balancer afterwards and
    the outbound calls issued on the way. *)
Definition handle_request (net : network) (lb : LoadLoad) (request : Request)
    : Response * LoadLoad * list OutRequest :=
  match select_server lb request with
  | (None, lb') => (no_servers_available, lb', [])
  | (Some server, lb') =>
      match proxy net lb' server request with
      | (Returns response, calls) => (response, lb', calls)
      | (Raises _, calls) => (backend_error, lb', calls)
      end
  end.

(** ** Runs of the balancer *)

(** One operation on the balancer; the network may answer differently at
    every step. *)
Inductive step : LoadLoad → LoadLoad → Prop :=
  | step_start lb : step lb (start lb)
  | step_stop lb : step lb (stop lb)
  | step_round_robin lb : step lb (_round_robin lb).2
  | step_get_server lb session_id : step lb (_get_server lb session_id).2
  | step_check_health net lb server : step lb (_check_health net lb server).1
  | step_handle_request net lb request :
      step lb (handle_request net lb request).1.2.

(** The states a balancer built by [__init__] can be in. *)
Definition reachable (lb : LoadLoad) : Prop :=
  ∃ h pool, rtc step (__init__ h pool) lb.

(** Every value of the sticky-session table is a member of the pool. *)
Definition sticky_in_pool (lb : LoadLoad) : Prop :=
  ∀ session_id server,
    sticky_sessions lb !! session_id = Some server → server ∈ servers lb.

(** ** Sample data *)

Definition sample_heap : loc → Server :=
  λ l, {| host := "localhost"; port := 8001 + Z.of_nat l; is_healthy := true |}.

Definition SERVERS : list loc := [0%nat; 1%nat; 2%nat].

Definition down_heap : loc → Server :=
  λ l, set_is_healthy false (sample_heap l).

Definition anonymous_request : Request :=
  {| req_method := "GET"; req_path_qs := "/"; req_headers := [("Host", "localhost:8000")];
     req_cookies := ∅; req_remote := None; req_body_exists := false;
     req_read := Returns [] |}.

Definition dead_network : network := λ _, Raises ClientConnectionError.

(** Backend 2 has failed its health check. *)
Definition one_down_heap : loc → Server :=
  <[2%nat := set_is_healthy false (sample_heap 2%nat)]> sample_heap.

(** A started balancer in which session [abc] is pinned to backend 2. *)
Definition sticky_lb : LoadLoad :=
  set_sticky_sessions {["abc" := 2%nat]} (start (__init__ sample_heap SERVERS)).

Definition stale_lb : LoadLoad := set_heap one_down_heap sticky_lb.

Definition cookie_request : Request :=
  {| req_method := "GET"; req_path_qs := "/cart?item=3";
     req_headers := [("Host", "localhost:8000"); ("Cookie", "session_id=abc")];
     req_cookies := {["session_id" := "abc"]}; req_remote := Some "10.0.0.7";
     req_body_exists := false; req_read := Returns [] |}.

(** A request whose [Accept] header comes on two lines. *)
Definition repeated_header_request : Request :=
  {| req_method := "POST"; req_path_qs := "/upload";
     req_headers := [("Host", "localhost:8000"); ("Accept", "text/html");
                     ("Accept", "application/json")];
     req_cookies := ∅; req_remote := None;
     req_body_exists := true; req_read := Returns [x01; x02] |}.

(** A backend that answers every call and sets two cookies. *)
Definition cookie_response : ClientResponse :=
  {| cr_status := 200;
     cr_headers := [("Content-Type", "text/plain"); ("Set-Cookie", "a=1");
                    ("Set-Cookie", "b=2")];
     cr_read := Returns [x6f; x6b] |}.

Definition ok_network : network := λ _, Returns cookie_response.

(** The pinned balancer after [stop]. *)
Definition stopped_lb : LoadLoad := stop sticky_lb.

(** A request carrying the same cookie from another address. *)
Definition second_cookie_request : Request :=
  {| req_method := "POST"; req_path_qs := "/checkout";
     req_headers := [("Host", "localhost:8000"); ("Cookie", "session_id=abc")];
     req_cookies := {["session_id" := "abc"]}; req_remote := Some "10.0.0.9";
     req_body_exists := true; req_read := Returns [x01] |}.

(** A backend that answers every call with 204 No Content. *)
Definition no_content_response : ClientResponse :=
  {| cr_status := 204; cr_headers := []; cr_read := Returns [] |}.

Definition no_content_network : network := λ _, Returns no_content_response.

(** The balancer after one anonymous selection: the cursor is at 1. *)
Definition advanced_lb : LoadLoad :=
  (_round_robin (start (__init__ sample_heap SERVERS))).2.

(** * Properties *)

(** ** Selection policy *)

Section round_robin.
Implicit Types (lb : LoadLoad) (hs : list loc).

Lemma healthy_servers_healthy lb s :
  s ∈ healthy_servers lb ↔ s ∈ servers lb ∧ is_healthy (heap lb s) = true.
Proof. unfold healthy_servers. by rewrite list_elem_of_filter, (comm and). Qed.

Lemma healthy_servers_nil lb :
  healthy_servers lb = [] ↔ ∀ s, s ∈ servers lb → is_healthy (heap lb s) = false.
Proof.
  split.
  - intros Hnil s Hs. destruct (is_healthy (heap lb s)) eqn:Hh; [|done].
    assert (s ∈ healthy_servers lb) as Hin by by apply healthy_servers_healthy.
    rewrite Hnil in Hin. by apply not_elem_of_nil in Hin.
  - intros Hall. destruct (healthy_servers lb) as [|s hs] eqn:Hhs; [done|].
    assert (s ∈ healthy_servers lb) as Hin by (rewrite Hhs; left).
    apply healthy_servers_healthy in Hin as [Hs Hh].
    rewrite (Hall s Hs) in Hh. done.
Qed.

Lemma cursor_in_range (c : Z) hs :
  hs ≠ [] → (Z.to_nat (c `mod` Z.of_nat (length hs)) < length hs)%nat.
Proof.
  intros Hne. assert (0 < length hs)%nat by (destruct hs; [done|simpl; lia]).
  pose proof (Z.mod_pos_bound c (Z.of_nat (length hs))). lia.
Qed.

Lemma _round_robin_empty lb :
  healthy_servers lb = [] → _round_robin lb = (None, lb).
Proof. unfold _round_robin. by intros ->. Qed.

Lemma _round_robin_pick lb :
  healthy_servers lb ≠ [] →
  ∃ server,
    healthy_servers lb
      !! Z.to_nat (current_index lb `mod` Z.of_nat (length (healthy_servers lb)))
      = Some server
    ∧ _round_robin lb = (Some server, set_current_index (current_index lb + 1) lb).
Proof.
  intros Hne. pose proof (cursor_in_range (current_index lb) _ Hne) as Hlt.
  unfold _round_robin.
  destruct (healthy_servers lb) as [|s0 hs] eqn:Hhs; [done|].
  destruct (lookup_lt_is_Some_2 _ _ Hlt) as [server Hserver].
  exists server. split; [done|].
  by rewrite (nth_lookup_Some _ _ s0 server Hserver).
Qed.

Lemma set_current_index_id lb c : c = current_index lb → set_current_index c lb = lb.
Proof. intros ->. by destruct lb. Qed.

Lemma round_robin_n_unfold n lb :
  healthy_servers lb ≠ [] →
  round_robin_n n lb =
    ((λ k : nat,
        healthy_servers lb
          !! Z.to_nat ((current_index lb + Z.of_nat k)
                         `mod` Z.of_nat (length (healthy_servers lb))))
       <$> seq 0 n,
     set_current_index (current_index lb + Z.of_nat n) lb).
Proof.
  revert lb. induction n as [|n IH]; intros lb Hne.
  - simpl. f_equal. symmetry. apply set_current_index_id. lia.
  - destruct (_round_robin_pick lb Hne) as (server & Hlook & Hrr).
    cbn [round_robin_n]. rewrite Hrr, IH by done.
    cbn [seq fmap list_fmap]. f_equal.
    + f_equal.
      * rewrite <- Hlook. do 3 f_equal. simpl. lia.
      * rewrite <- (fmap_S_seq 0), <- list_fmap_compose.
        apply list_fmap_ext. intros _ k _. simpl.
        unfold healthy_servers. simpl. do 3 f_equal. lia.
    + unfold set_current_index. simpl. f_equal. lia.
Qed.
End round_robin.

Lemma round_robin_n_rotation (lb : LoadLoad) :
  let hs := healthy_servers lb in
  let N := length hs in
  let r := Z.to_nat (current_index lb `mod` Z.of_nat N) in
  (round_robin_n N lb).1 = Some <$> (drop r hs ++ take r hs)
  ∧ (round_robin_n N lb).1 ≡ₚ Some <$> hs
  ∧ healthy_servers (round_robin_n N lb).2 = hs
  ∧ current_index (round_robin_n N lb).2 = current_index lb + Z.of_nat N.
Proof.
  intros hs N r.
  assert ((round_robin_n N lb).1 = Some <$> (drop r hs ++ take r hs)
          ∧ healthy_servers (round_robin_n N lb).2 = hs
          ∧ current_index (round_robin_n N lb).2 = current_index lb + Z.of_nat N)
    as (Hres & Hhs & Hcur).
  { destruct (decide (hs = [])) as [Hnil|Hne].
    - subst N. rewrite Hnil. simpl. by rewrite drop_nil, take_nil, Z.add_0_r.
    - subst hs. rewrite round_robin_n_unfold by done. simpl.
      split; [|done].
      pose proof (cursor_in_range (current_index lb) _ Hne) as Hr. fold N r in Hr.
      replace (drop r (healthy_servers lb) ++ take r (healthy_servers lb))
        with (rotate r (healthy_servers lb))
        by (unfold rotate; fold N; by rewrite Nat.mod_small).
      apply list_eq. intros i. rewrite !list_lookup_fmap.
      destruct (decide (i < N)%nat) as [Hi|Hi].
      + rewrite lookup_seq_lt by done. rewrite lookup_rotate_r by done.
        fold N. unfold rotate_nat_add. simpl.
        replace ((Z.of_nat r + Z.of_nat i) `mod` Z.of_nat N)
          with ((current_index lb + Z.of_nat i) `mod` Z.of_nat N).
        * pose proof (cursor_in_range (current_index lb + Z.of_nat i) _ Hne) as Hlt.
          fold N in Hlt. destruct (lookup_lt_is_Some_2 _ _ Hlt) as [x Hx].
          by rewrite Hx.
        * subst r. rewrite Z2Nat.id by (apply Z.mod_pos_bound; lia).
          by rewrite Zplus_mod_idemp_l.
      + rewrite lookup_seq_ge by lia. simpl.
        rewrite lookup_ge_None_2; [done|]. rewrite length_rotate. fold N. lia. }
  repeat split; try done.
  rewrite Hres. apply fmap_Permutation.
  rewrite Permutation_app_comm. by rewrite take_drop.
Qed.


(** C1 (round-robin fairness).  Let [hs] be the pool members whose flag is
    up, in pool order, and [N] their number.  [N] consecutive calls of
    [_round_robin] return [hs] starting at position [current_index mod N]
    and wrapping round: every healthy pool member is returned exactly once
    and nothing else is.  The calls change no flag and no pool entry, and
    move the cursor by [N]. *)
Theorem round_robin_fairness (lb : LoadLoad) :
  let hs := filter (λ s, is_healthy (heap lb s) = true) (servers lb) in
  let N := length hs in
  let r := Z.to_nat (current_index lb `mod` Z.of_nat N) in
  (round_robin_n N lb).1 = Some <$> (drop r hs ++ take r hs)
  ∧ (round_robin_n N lb).1 ≡ₚ Some <$> hs
  ∧ (∀ s, (Some s ∈ (round_robin_n N lb).1) ↔
          (s ∈ servers lb ∧ is_healthy (heap lb s) = true))
  ∧ (None ∉ (round_robin_n N lb).1)
  ∧ heap (round_robin_n N lb).2 = heap lb
  ∧ servers (round_robin_n N lb).2 = servers lb
  ∧ filter (λ s, is_healthy (heap (round_robin_n N lb).2 s) = true)
           (servers (round_robin_n N lb).2) = hs
  ∧ current_index (round_robin_n N lb).2 = current_index lb + Z.of_nat N.
Proof.
  intros hs N r.
  destruct (round_robin_n_rotation lb) as (Hres & Hperm & Hhs & Hcur).
  change (healthy_servers lb) with hs in Hres, Hperm, Hhs, Hcur.
  fold N in Hres, Hperm, Hhs, Hcur. fold r in Hres.
  assert ((round_robin_n N lb).2 = set_current_index (current_index lb + Z.of_nat N) lb)
    as Hstate.
  { destruct (decide (healthy_servers lb = [])) as [Hnil|Hne].
    - subst N hs. change (filter _ (servers lb)) with (healthy_servers lb).
      rewrite Hnil. simpl. symmetry. apply set_current_index_id. lia.
    - by rewrite round_robin_n_unfold. }
  split_and!; [done | done | | | by rewrite Hstate | by rewrite Hstate
               | exact Hhs | done].
  - intros s. rewrite Hperm, list_elem_of_fmap. subst hs. split.
    + intros (s' & [= <-] & Hin). apply list_elem_of_filter in Hin. tauto.
    + intros [Hin Hup]. exists s. split; [done|].
      apply list_elem_of_filter. tauto.
  - rewrite Hperm, list_elem_of_fmap. by intros (s' & [=] & _).
Qed.

(** Three healthy backends and the cursor at 1: B2, B3, B1. *)
Lemma round_robin_fairness_witness :
  (round_robin_n 3 advanced_lb).1 = [Some 1%nat; Some 2%nat; Some 0%nat]
  ∧ current_index (round_robin_n 3 advanced_lb).2 = 4.
Proof.
  pose proof (round_robin_fairness advanced_lb) as (Hres & _ & _ & _ & _ & _ & _ & Hcur).
  split; [exact Hres | exact Hcur].
Defined.

(** C5, as the specification states it, fails: a call made while no
    backend is healthy does not move the cursor. *)
Lemma round_robin_cursor_drift_counterexample :
  ¬ (∀ lb : LoadLoad,
       current_index (_round_robin lb).2 = current_index lb + 1).
Proof.
  intros H. specialize (H (__init__ down_heap SERVERS)).
  vm_compute in H. discriminate H.
Qed.

(** C5 (cursor movement, amended).  A call of [_round_robin] returns a
    backend exactly when some backend is healthy.  A call that returns a
    backend adds exactly one to the cursor; a call that returns nothing
    leaves the cursor, and the whole balancer, as it was. *)
Theorem round_robin_cursor (lb : LoadLoad) :
  ((_round_robin lb).1 = None ↔ healthy_servers lb = [])
  ∧ (is_Some (_round_robin lb).1 →
       current_index (_round_robin lb).2 = current_index lb + 1)
  ∧ ((_round_robin lb).1 = None → (_round_robin lb).2 = lb).
Proof.
  destruct (decide (healthy_servers lb = [])) as [Hnil|Hne].
  - rewrite _round_robin_empty by done. simpl.
    split_and!; [done| by intros [? ?] | done].
  - destruct (_round_robin_pick lb Hne) as (server & _ & ->). simpl.
    split_and!; [split; done | done | done].
Qed.

(** A healthy pool after one call, and a pool with no healthy backend. *)
Lemma round_robin_cursor_witness :
  (is_Some (_round_robin (__init__ sample_heap SERVERS)).1
   ∧ current_index (_round_robin (__init__ sample_heap SERVERS)).2 = 1)
  ∧ ((_round_robin (__init__ down_heap SERVERS)).1 = None
     ∧ (_round_robin (__init__ down_heap SERVERS)).2 = __init__ down_heap SERVERS).
Proof.
  pose proof (round_robin_cursor (__init__ sample_heap SERVERS)) as (_ & Hs & _).
  pose proof (round_robin_cursor (__init__ down_heap SERVERS)) as (_ & _ & Hn).
  split.
  - assert (is_Some (_round_robin (__init__ sample_heap SERVERS)).1) as Hsome
      by (vm_compute; eauto).
    split; [exact Hsome | exact (Hs Hsome)].
  - assert ((_round_robin (__init__ down_heap SERVERS)).1 = None) as Hnone
      by reflexivity.
    split; [exact Hnone | exact (Hn Hnone)].
Defined.

(** ** Affinity table *)

Section affinity.
Implicit Types (lb : LoadLoad) (t : gmap string loc).

Lemma _round_robin_frame lb :
  heap (_round_robin lb).2 = heap lb
  ∧ servers (_round_robin lb).2 = servers lb
  ∧ sticky_sessions (_round_robin lb).2 = sticky_sessions lb
  ∧ session (_round_robin lb).2 = session lb.
Proof.
  destruct (decide (healthy_servers lb = [])) as [Hnil|Hne].
  - by rewrite _round_robin_empty.
  - by destruct (_round_robin_pick lb Hne) as (server & _ & ->).
Qed.

Lemma _round_robin_healthy lb server :
  (_round_robin lb).1 = Some server → server ∈ healthy_servers lb.
Proof.
  destruct (decide (healthy_servers lb = [])) as [Hnil|Hne].
  - by rewrite _round_robin_empty.
  - destruct (_round_robin_pick lb Hne) as (s & Hlook & ->). simpl.
    intros [= <-]. by eapply list_elem_of_lookup_2.
Qed.

(** The selection policy never looks at the table. *)
Lemma _round_robin_sticky lb t :
  _round_robin (set_sticky_sessions t lb)
  = ((_round_robin lb).1, set_sticky_sessions t (_round_robin lb).2).
Proof.
  unfold _round_robin.
  change (healthy_servers (set_sticky_sessions t lb)) with (healthy_servers lb).
  by destruct (healthy_servers lb).
Qed.

Lemma _get_server_frame lb session_id :
  heap (_get_server lb session_id).2 = heap lb
  ∧ servers (_get_server lb session_id).2 = servers lb
  ∧ session (_get_server lb session_id).2 = session lb.
Proof.
  unfold _get_server.
  destruct (sticky_sessions lb !! session_id) as [server|];
    [destruct (is_healthy (heap lb server)); [done|] |].
  - rewrite _round_robin_sticky.
    pose proof (_round_robin_frame lb) as (? & ? & ? & ?).
    by destruct (_round_robin lb) as [[s|] lb'].
  - pose proof (_round_robin_frame lb) as (? & ? & ? & ?).
    by destruct (_round_robin lb) as [[s|] lb'].
Qed.

Lemma _get_server_sticky lb session_id sid server :
  sticky_sessions (_get_server lb session_id).2 !! sid = Some server →
  sticky_sessions lb !! sid = Some server ∨ server ∈ healthy_servers lb.
Proof.
  unfold _get_server.
  destruct (sticky_sessions lb !! session_id) as [old|] eqn:Hold;
    [destruct (is_healthy (heap lb old)); [by left|] |].
  - rewrite _round_robin_sticky.
    pose proof (_round_robin_healthy lb) as Hh.
    destruct (_round_robin lb) as [[s|] lb']; simpl in *.
    + destruct (decide (session_id = sid)) as [->|Hne].
      * rewrite lookup_insert_eq. intros [= <-]. right. by apply Hh.
      * rewrite lookup_insert_ne, lookup_delete_ne by done. by left.
    + intros Hl. left. apply lookup_delete_Some in Hl. tauto.
  - pose proof (_round_robin_frame lb) as (_ & _ & Ht & _).
    pose proof (_round_robin_healthy lb) as Hh.
    destruct (_round_robin lb) as [[s|] lb']; simpl in *; rewrite Ht.
    + destruct (decide (session_id = sid)) as [->|Hne].
      * rewrite lookup_insert_eq. intros [= <-]. right. by apply Hh.
      * rewrite lookup_insert_ne by done. by left.
    + by left.
Qed.
End affinity.

(** C2 (affinity stability).  A lookup for a session whose recorded backend
    is healthy returns that backend and hands the balancer back as it was:
    no selection is made, so the cursor and the table are untouched. *)
Theorem affinity_stability (lb : LoadLoad) (session_id : string) (server : loc) :
  sticky_sessions lb !! session_id = Some server →
  is_healthy (heap lb server) = true →
  _get_server lb session_id = (Some server, lb)
  ∧ current_index (_get_server lb session_id).2 = current_index lb
  ∧ sticky_sessions (_get_server lb session_id).2 = sticky_sessions lb.
Proof.
  intros Hrec Hh.
  assert (_get_server lb session_id = (Some server, lb)) as ->; [|done].
  unfold _get_server. by rewrite Hrec, Hh.
Qed.

Lemma affinity_stability_witness :
  sticky_sessions sticky_lb !! "abc" = Some 2%nat
  ∧ is_healthy (heap sticky_lb 2%nat) = true
  ∧ _get_server sticky_lb "abc" = (Some 2%nat, sticky_lb).
Proof.
  assert (sticky_sessions sticky_lb !! "abc" = Some 2%nat) as H1 by reflexivity.
  assert (is_healthy (heap sticky_lb 2%nat) = true) as H2 by reflexivity.
  split; [exact H1|]. split; [exact H2|].
  exact (proj1 (affinity_stability sticky_lb "abc" 2%nat H1 H2)).
Defined.

(** C3 (affinity invalidation).  A lookup for a session whose recorded
    backend is unhealthy deletes the stale entry.  If some pool member is
    healthy the lookup returns a healthy pool member, which is not the
    stale one, and records it for the session; if every pool member is
    unhealthy, the lookup returns nothing and the table is the old one
    without the stale entry. *)
Theorem affinity_invalidation (lb : LoadLoad) (session_id : string) (stale : loc) :
  sticky_sessions lb !! session_id = Some stale →
  is_healthy (heap lb stale) = false →
  let res := _get_server lb session_id in
  sticky_sessions res.2 !! session_id ≠ Some stale
  ∧ ((∀ s, s ∈ servers lb → is_healthy (heap lb s) = false) →
       res.1 = None
       ∧ sticky_sessions res.2 = delete session_id (sticky_sessions lb))
  ∧ ((∃ s, s ∈ servers lb ∧ is_healthy (heap lb s) = true) →
       ∃ server,
         res.1 = Some server
         ∧ server ∈ servers lb
         ∧ is_healthy (heap lb server) = true
         ∧ is_healthy (heap res.2 server) = true
         ∧ server ≠ stale
         ∧ sticky_sessions res.2
           = <[session_id := server]> (delete session_id (sticky_sessions lb))).
Proof.
  intros Hrec Hdown res. subst res. unfold _get_server.
  rewrite Hrec, Hdown, _round_robin_sticky.
  destruct (decide (healthy_servers lb = [])) as [Hnil|Hne].
  - rewrite _round_robin_empty by done. simpl.
    split_and!; [by rewrite lookup_delete_eq | done |].
    intros (s & Hs & Hup).
    rewrite (proj1 (healthy_servers_nil lb) Hnil s Hs) in Hup. done.
  - destruct (_round_robin_pick lb Hne) as (server & Hlook & Hrr).
    rewrite Hrr. simpl.
    apply list_elem_of_lookup_2, healthy_servers_healthy in Hlook as [Hin Hup].
    assert (server ≠ stale) as Hdiff by (intros ->; congruence).
    split_and!.
    + rewrite lookup_insert_eq. congruence.
    + intros Hall. rewrite (Hall server Hin) in Hup. done.
    + intros _. by exists server.
Qed.

(** Session [abc] was pinned to B3, which is down; B1 takes it over. *)
Lemma affinity_invalidation_witness :
  sticky_sessions stale_lb !! "abc" = Some 2%nat
  ∧ is_healthy (heap stale_lb 2%nat) = false
  ∧ (∃ s, s ∈ servers stale_lb ∧ is_healthy (heap stale_lb s) = true)
  ∧ sticky_sessions (_get_server stale_lb "abc").2 !! "abc" ≠ Some 2%nat
  ∧ ∃ server,
      (_get_server stale_lb "abc").1 = Some server
      ∧ server ∈ servers stale_lb
      ∧ is_healthy (heap stale_lb server) = true
      ∧ is_healthy (heap (_get_server stale_lb "abc").2 server) = true
      ∧ server ≠ 2%nat
      ∧ sticky_sessions (_get_server stale_lb "abc").2
        = <["abc" := server]> (delete "abc" (sticky_sessions stale_lb)).
Proof.
  assert (sticky_sessions stale_lb !! "abc" = Some 2%nat) as H1 by reflexivity.
  assert (is_healthy (heap stale_lb 2%nat) = false) as H2 by reflexivity.
  assert (∃ s, s ∈ servers stale_lb ∧ is_healthy (heap stale_lb s) = true) as H3
    by (exists 0%nat; split; [left | reflexivity]).
  split; [exact H1|]. split; [exact H2|]. split; [exact H3|].
  pose proof (affinity_invalidation stale_lb "abc" 2%nat H1 H2) as (Hgone & _ & Hnew).
  split; [exact Hgone | exact (Hnew H3)].
Defined.

(** ** Request handling: which backend, and what happens to the balancer *)

Section selection.
Implicit Types (lb : LoadLoad) (request : Request) (net : network).

Lemma select_server_frame lb request :
  heap (select_server lb request).2 = heap lb
  ∧ servers (select_server lb request).2 = servers lb
  ∧ session (select_server lb request).2 = session lb.
Proof.
  unfold select_server.
  destruct (_get_session_id request) as [sid|]; [destruct (truthy sid)|];
    first [apply _get_server_frame
          | pose proof (_round_robin_frame lb); tauto].
Qed.

Lemma handle_request_state net lb request :
  (handle_request net lb request).1.2 = (select_server lb request).2.
Proof.
  unfold handle_request.
  destruct (select_server lb request) as [[server|] lb']; [|done].
  by destruct (proxy net lb' server request) as [[response|e] calls].
Qed.

Lemma _check_health_frame net lb server :
  servers (_check_health net lb server).1 = servers lb
  ∧ current_index (_check_health net lb server).1 = current_index lb
  ∧ sticky_sessions (_check_health net lb server).1 = sticky_sessions lb
  ∧ session (_check_health net lb server).1 = session lb.
Proof.
  unfold _check_health.
  by destruct (session_request net (session lb) (health_probe (heap lb server))).
Qed.

Lemma select_server_sticky lb request sid server :
  sticky_sessions (select_server lb request).2 !! sid = Some server →
  sticky_sessions lb !! sid = Some server ∨ server ∈ healthy_servers lb.
Proof.
  unfold select_server.
  destruct (_get_session_id request) as [session_id|];
    [destruct (truthy session_id)|].
  - apply _get_server_sticky.
  - pose proof (_round_robin_frame lb) as (_ & _ & -> & _). by left.
  - pose proof (_round_robin_frame lb) as (_ & _ & -> & _). by left.
Qed.

Lemma step_servers lb lb' : step lb lb' → servers lb' = servers lb.
Proof.
  destruct 1 as [lb|lb|lb|lb sid|net lb server|net lb request].
  - done.
  - unfold stop. by destruct (session lb).
  - apply _round_robin_frame.
  - apply _get_server_frame.
  - apply _check_health_frame.
  - rewrite handle_request_state. apply select_server_frame.
Qed.

Lemma step_sticky_in_pool lb lb' :
  sticky_in_pool lb → step lb lb' → sticky_in_pool lb'.
Proof.
  intros Hinv Hstep sid server. rewrite (step_servers _ _ Hstep).
  destruct Hstep as [lb|lb|lb|lb session_id|net lb s|net lb request].
  - apply Hinv.
  - unfold stop. destruct (session lb); apply Hinv.
  - pose proof (_round_robin_frame lb) as (_ & _ & -> & _). apply Hinv.
  - intros Hl. apply _get_server_sticky in Hl as [Hold|Hnew]; [by eapply Hinv|].
    by apply healthy_servers_healthy in Hnew as [? _].
  - pose proof (_check_health_frame net lb s) as (_ & _ & -> & _). apply Hinv.
  - rewrite handle_request_state.
    intros Hl. apply select_server_sticky in Hl as [Hold|Hnew]; [by eapply Hinv|].
    by apply healthy_servers_healthy in Hnew as [? _].
Qed.

Lemma rtc_step_sticky_in_pool lb lb' :
  sticky_in_pool lb → rtc step lb lb' → sticky_in_pool lb'.
Proof.
  intros Hinv Hrun. induction Hrun as [lb|lb lb1 lb2 Hstep _ IH]; [done|].
  apply IH. by eapply step_sticky_in_pool.
Qed.

(** A pass of the prober is a run of single health checks. *)
Lemma health_check_pass_run net lb :
  rtc step lb (health_check_pass net lb).1.
Proof.
  unfold health_check_pass. generalize (servers lb) as pool.
  intros pool. revert lb. induction pool as [|server pool IH]; intros lb; [done|].
  simpl. specialize (IH (_check_health net lb server).1).
  pose proof (step_check_health net lb server) as Hstep.
  destruct (_check_health net lb server) as [lb1 calls1]. simpl in *.
  destruct (check_all net lb1 pool) as [lb2 calls2]. simpl in *.
  by eapply rtc_l.
Qed.

Lemma __init___sticky_in_pool (h : loc → Server) (pool : list loc) :
  sticky_in_pool (__init__ h pool).
Proof. intros sid server. simpl. by rewrite lookup_empty. Qed.

Lemma _get_server_all_down lb session_id :
  sticky_in_pool lb → healthy_servers lb = [] →
  (_get_server lb session_id).1 = None.
Proof.
  intros Hinv Hnil. unfold _get_server.
  destruct (sticky_sessions lb !! session_id) as [server|] eqn:Hrec.
  - rewrite (proj1 (healthy_servers_nil lb) Hnil server) by by eapply Hinv.
    by rewrite _round_robin_sticky, _round_robin_empty.
  - by rewrite _round_robin_empty.
Qed.
End selection.

(** C10 (table membership).  In every state a balancer built by [__init__]
    can reach through [start], [stop], round-robin selections, affinity
    lookups, health checks and handled requests, every backend stored in
    the sticky-session table is a member of the pool. *)
Theorem sticky_table_membership (lb : LoadLoad) :
  reachable lb →
  ∀ session_id server,
    sticky_sessions lb !! session_id = Some server → server ∈ servers lb.
Proof.
  intros (h & pool & Hrun).
  exact (rtc_step_sticky_in_pool _ _ (__init___sticky_in_pool h pool) Hrun).
Qed.

Lemma sticky_table_membership_witness :
  reachable (_get_server (__init__ sample_heap SERVERS) "abc").2
  ∧ ∀ session_id server,
      sticky_sessions (_get_server (__init__ sample_heap SERVERS) "abc").2
        !! session_id = Some server →
      server ∈ SERVERS.
Proof.
  assert (reachable (_get_server (__init__ sample_heap SERVERS) "abc").2) as Hreach.
  { exists sample_heap, SERVERS. apply rtc_once, step_get_server. }
  split; [exact Hreach|].
  exact (sticky_table_membership _ Hreach).
Defined.

(** C4 (no-backend fallback).  In a reachable state in which every pool
    member is unhealthy, [_round_robin] and [_get_server] return nothing,
    and [handle_request] answers with the fixed 503 response and issues no
    outbound call. *)
Theorem no_backend_fallback (lb : LoadLoad) :
  reachable lb →
  (∀ s, s ∈ servers lb → is_healthy (heap lb s) = false) →
  (_round_robin lb).1 = None
  ∧ (∀ session_id, (_get_server lb session_id).1 = None)
  ∧ (∀ net request,
       (handle_request net lb request).1.1 = no_servers_available
       ∧ (handle_request net lb request).2 = [])
  ∧ resp_status no_servers_available = 503
  ∧ resp_text no_servers_available = Some "No servers available".
Proof.
  intros (h & pool & Hrun) Hdown%healthy_servers_nil.
  pose proof (rtc_step_sticky_in_pool _ _ (__init___sticky_in_pool h pool) Hrun)
    as Hinv.
  assert ((_round_robin lb).1 = None) as Hrr by by rewrite _round_robin_empty.
  assert (∀ sid, (_get_server lb sid).1 = None) as Hget
    by (intros sid; by apply _get_server_all_down).
  split_and!; [done | done | | done | done].
  intros net request. unfold handle_request.
  assert ((select_server lb request).1 = None) as Hsel.
  { unfold select_server.
    destruct (_get_session_id request) as [sid|]; [destruct (truthy sid)|]; auto. }
  destruct (select_server lb request) as [[server|] lb']; [done|done].
Qed.

Lemma no_backend_fallback_witness :
  reachable (start (__init__ down_heap SERVERS))
  ∧ (∀ s, s ∈ SERVERS → is_healthy (down_heap s) = false)
  ∧ (handle_request ok_network (start (__init__ down_heap SERVERS)) cookie_request).1.1
    = no_servers_available
  ∧ (handle_request ok_network (start (__init__ down_heap SERVERS)) cookie_request).2
    = [].
Proof.
  assert (reachable (start (__init__ down_heap SERVERS))) as Hreach.
  { exists down_heap, SERVERS. apply rtc_once, step_start. }
  assert (∀ s, s ∈ SERVERS → is_healthy (down_heap s) = false) as Hdown
    by (intros s _; reflexivity).
  split; [exact Hreach|]. split; [exact Hdown|].
  exact (proj1 (proj2 (proj2 (no_backend_fallback _ Hreach Hdown)))
           ok_network cookie_request).
Defined.

(** ** Health prober *)

(** C6, as the specification states it, fails: 204 is a success status
    code, yet a probe answered with 204 marks the backend unhealthy. *)
Lemma health_check_success_status_counterexample :
  ¬ (∀ (net : network) (lb : LoadLoad) (server : loc) (response : ClientResponse),
       session lb = Some {| closed := false |} →
       net (health_probe (heap lb server)) = Returns response →
       success_status (cr_status response) = true →
       is_healthy (heap (_check_health net lb server).1 server) = true).
Proof.
  intros Hclaim.
  specialize (Hclaim no_content_network sticky_lb 0%nat no_content_response
                eq_refl eq_refl eq_refl).
  vm_compute in Hclaim. discriminate Hclaim.
Qed.

(** C6 (health-check postcondition, amended).  After one [_check_health]
    the backend's flag is true exactly when the session is open and the
    probe of [<url>/health] was answered with status 200; a raised
    exception or any other status, 2xx included, leaves it false.  The
    check always returns, issues at most the one probe, keeps the backend's
    host and port, and changes neither another backend nor the pool, the
    cursor, the table or the session. *)
Theorem check_health_postcondition (net : network) (lb : LoadLoad) (server : loc) :
  let probe := health_probe (heap lb server) in
  let lb' := (_check_health net lb server).1 in
  (is_healthy (heap lb' server) = true ↔
     session lb = Some {| closed := false |}
     ∧ ∃ response, net probe = Returns response ∧ cr_status response = 200)
  ∧ (∀ e, net probe = Raises e → is_healthy (heap lb' server) = false)
  ∧ (∀ response, net probe = Returns response → cr_status response ≠ 200 →
       is_healthy (heap lb' server) = false)
  ∧ ((_check_health net lb server).2 = []
     ∨ (_check_health net lb server).2 = [probe])
  ∧ host (heap lb' server) = host (heap lb server)
  ∧ port (heap lb' server) = port (heap lb server)
  ∧ (∀ s, s ≠ server → heap lb' s = heap lb s)
  ∧ servers lb' = servers lb
  ∧ current_index lb' = current_index lb
  ∧ sticky_sessions lb' = sticky_sessions lb
  ∧ session lb' = session lb.
Proof.
  intros probe lb'. subst lb'. unfold _check_health. fold probe.
  destruct (session_request net (session lb) probe) as [r calls] eqn:Hreq.
  cbn [fst snd set_heap heap servers current_index sticky_sessions session].
  rewrite fn_lookup_insert.
  cbn [set_is_healthy is_healthy host port].
  assert (∀ s, s ≠ server →
            <[server := set_is_healthy
                          match r with
                          | Returns response => bool_decide (cr_status response = 200)
                          | Raises _ => false
                          end (heap lb server)]> (heap lb) s = heap lb s) as Hframe
    by (intros s Hs; by rewrite fn_lookup_insert_ne).
  unfold session_request in Hreq.
  destruct (session lb) as [[[|]]|] eqn:Hs; simpl in Hreq; simplify_eq.
  - split_and!; try done; try by left.
    split; [done|]. by intros [[=] _].
  - destruct (net probe) as [response|e] eqn:Hnet.
    + split_and!; try done; try by right.
      * rewrite bool_decide_eq_true. split.
        -- intros Hok. split; [done|]. by exists response.
        -- by intros (_ & r & [= <-] & Hok).
      * intros r [= <-] Hbad. by rewrite bool_decide_eq_false.
    + split_and!; try done; try by right.
      split; [done|]. by intros (_ & r & [=] & _).
  - split_and!; try done; try by left.
    split; [done|]. by intros [[=] _].
Qed.

(** A 200 answer brings B3 back; a 204 answer or no answer takes it out. *)
Lemma check_health_postcondition_witness :
  is_healthy (heap (_check_health ok_network stale_lb 2%nat).1 2%nat) = true
  ∧ is_healthy (heap (_check_health no_content_network sticky_lb 2%nat).1 2%nat)
    = false
  ∧ is_healthy (heap (_check_health dead_network sticky_lb 2%nat).1 2%nat) = false.
Proof.
  pose proof (check_health_postcondition ok_network stale_lb 2%nat)
    as (Hup & _).
  pose proof (check_health_postcondition no_content_network sticky_lb 2%nat)
    as (_ & _ & Hother & _).
  pose proof (check_health_postcondition dead_network sticky_lb 2%nat)
    as (_ & Hraise & _).
  split_and!.
  - apply Hup. split; [reflexivity|].
    exists cookie_response. split; reflexivity.
  - apply (Hother no_content_response); [reflexivity | discriminate].
  - apply (Hraise ClientConnectionError). reflexivity.
Defined.

(** ** Proxy dispatcher *)

Section headers.
Implicit Types (items md : list (string * string)) (d : gmap string string).
Implicit Types (k v : string).

Lemma forward_step_skip items d k :
  k ∉ items.*1 → foldl keep_header d items !! k = d !! k.
Proof.
  revert d. induction items as [|[k' v'] items IH]; intros d Hk; [done|].
  apply not_elem_of_cons in Hk as [Hne Hk]. simpl in *.
  rewrite IH by done. unfold keep_header. simpl.
  case_bool_decide; [|done]. by rewrite lookup_insert_ne.
Qed.

Lemma forward_step_host items d k :
  lower k = "host" → foldl keep_header d items !! k = d !! k.
Proof.
  intros Hhost. revert d.
  induction items as [|[k' v'] items IH]; intros d; [done|]. simpl.
  rewrite IH. unfold keep_header. simpl. case_bool_decide as Hk'; [|done].
  rewrite lookup_insert_ne; [done|]. by intros ->.
Qed.

Lemma forward_step_last l1 l2 d k v :
  lower k ≠ "host" → k ∉ l2.*1 →
  foldl keep_header d (l1 ++ (k, v) :: l2) !! k = Some v.
Proof.
  intros Hk Hl2. rewrite foldl_app. simpl.
  rewrite forward_step_skip by done. unfold keep_header. simpl.
  rewrite bool_decide_true by done. apply lookup_insert_eq.
Qed.

Lemma last_occurrence items k :
  k ∈ items.*1 → ∃ l1 v l2, items = l1 ++ (k, v) :: l2 ∧ k ∉ l2.*1.
Proof.
  induction items as [|[k' v'] items IH]; intros Hk.
  - by apply not_elem_of_nil in Hk.
  - destruct (decide (k ∈ items.*1)) as [Hin|Hout].
    + destruct (IH Hin) as (l1 & v & l2 & -> & Hl2).
      by exists ((k', v') :: l1), v, l2.
    + apply elem_of_cons in Hk as [->|Hk]; [|done].
      by exists [], v', items.
Qed.

Lemma forward_headers_lookup items k v :
  forward_headers items !! k = Some v ↔
  lower k ≠ "host" ∧ ∃ l1 l2, items = l1 ++ (k, v) :: l2 ∧ k ∉ l2.*1.
Proof.
  unfold forward_headers. split.
  - intros Hd. destruct (decide (lower k = "host")) as [Hhost|Hk].
    { by rewrite forward_step_host, lookup_empty in Hd. }
    split; [done|].
    destruct (decide (k ∈ items.*1)) as [Hin|Hout].
    + destruct (last_occurrence items k Hin) as (l1 & v' & l2 & -> & Hl2).
      rewrite forward_step_last in Hd by done. injection Hd as ->. eauto.
    + by rewrite forward_step_skip, lookup_empty in Hd.
  - intros (Hk & l1 & l2 & -> & Hl2). by apply forward_step_last.
Qed.

Lemma forward_headers_distinct items k v :
  NoDup items.*1 →
  forward_headers items !! k = Some v ↔ (k, v) ∈ items ∧ lower k ≠ "host".
Proof.
  intros Hnd. rewrite forward_headers_lookup. split.
  - intros (Hk & l1 & l2 & -> & _). split; [|done].
    apply elem_of_app. right. left.
  - intros [Hin Hk]. split; [done|].
    apply list_elem_of_split in Hin as (l1 & l2 & ->).
    exists l1, l2. split; [done|].
    rewrite fmap_app, fmap_cons in Hnd.
    apply NoDup_app in Hnd as (_ & _ & Hnd).
    by apply NoDup_cons in Hnd as [? _].
Qed.

Lemma first_per_name_distinct md :
  NoDup (lower <$> md.*1) → first_per_name md = md.
Proof.
  induction md as [|[k v] md IH]; [done|]. simpl.
  intros [Hfresh Hnd]%NoDup_cons. rewrite IH by done. f_equal.
  clear IH Hnd. induction md as [|[k' v'] md IH]; [done|]. simpl in *.
  apply not_elem_of_cons in Hfresh as [Hne Hfresh].
  rewrite filter_cons, decide_True by done. f_equal. by apply IH.
Qed.

Lemma dict_of_headers_distinct md k v :
  NoDup (lower <$> md.*1) →
  dict_of_headers md !! k = Some v ↔ (k, v) ∈ md.
Proof.
  intros Hnd. unfold dict_of_headers. rewrite first_per_name_distinct by done.
  symmetry. apply elem_of_list_to_map. by apply NoDup_fmap_1 in Hnd.
Qed.
End headers.

Section dispatch.
Implicit Types (lb : LoadLoad) (request : Request) (net : network).

(** The [try] block, case by case. *)
Lemma proxy_cases net lb server request :
  proxy net lb server request =
  match session lb with
  | None => (Raises AttributeError, [])
  | Some cs =>
      match request_data request with
      | Raises e => (Raises e, [])
      | Returns data =>
          let out := outbound (heap lb server) request data in
          if closed cs then (Raises RuntimeError, [])
          else match net out with
               | Raises e => (Raises e, [out])
               | Returns response =>
                   match cr_read response with
                   | Raises e => (Raises e, [out])
                   | Returns body =>
                       (Returns {| resp_text := None; resp_body := Some body;
                                   resp_status := cr_status response;
                                   resp_headers :=
                                     Some (dict_of_headers (cr_headers response)) |},
                        [out])
                   end
               end
      end
  end.
Proof.
  unfold proxy, session_request, io_lift, io_ret, io_bind.
  destruct (session lb) as [[[|]]|]; [| |done].
  - by destruct (request_data request).
  - destruct (request_data request) as [data|e]; [|done]. simpl.
    destruct (net _) as [response|e]; [|done].
    by destruct (cr_read response).
Qed.

Lemma handle_request_selected net lb request server :
  (select_server lb request).1 = Some server →
  handle_request net lb request =
  match proxy net lb server request with
  | (Returns response, calls) => (response, (select_server lb request).2, calls)
  | (Raises _, calls) => (backend_error, (select_server lb request).2, calls)
  end.
Proof.
  intros Hsel. unfold handle_request.
  pose proof (select_server_frame lb request) as (Hheap & _ & Hsess).
  destruct (select_server lb request) as [o lb']. simpl in *. subst o.
  assert (proxy net lb' server request = proxy net lb server request) as ->; [|done].
  unfold proxy. by rewrite Hheap, Hsess.
Qed.
End dispatch.

(** C9 (anonymous requests).  The derived session id is absent or empty
    only when the [session_id] cookie is absent or empty and the remote
    address is absent or empty as well.  For such a request
    [handle_request] selects with [_round_robin] directly and ends in the
    state [_round_robin] ends in: with every pool member unhealthy it
    answers 503, makes no call and changes nothing; with some pool member
    healthy it takes the healthy pool member at position
    [current_index mod N], moves the cursor by one, and answers with what
    the proxied call to that backend gives.  It leaves the sticky-session
    table as it was, and its response, its outbound calls and its cursor
    are the same whatever the table holds. *)
Theorem anonymous_request_round_robin (net : network) (lb : LoadLoad)
    (request : Request) :
  _get_session_id request = None ∨ _get_session_id request = Some "" →
  ((req_cookies request !! "session_id" = None
    ∨ req_cookies request !! "session_id" = Some "")
   ∧ (req_remote request = None ∨ req_remote request = Some ""))
  ∧ select_server lb request = _round_robin lb
  ∧ (handle_request net lb request).1.2 = (_round_robin lb).2
  ∧ ((∀ s, s ∈ servers lb → is_healthy (heap lb s) = false) →
       handle_request net lb request = (no_servers_available, lb, []))
  ∧ ((∃ s, s ∈ servers lb ∧ is_healthy (heap lb s) = true) →
       let hs := filter (λ s, is_healthy (heap lb s) = true) (servers lb) in
       ∃ server,
         hs !! Z.to_nat (current_index lb `mod` Z.of_nat (length hs)) = Some server
         ∧ (handle_request net lb request).1.2
           = set_current_index (current_index lb + 1) lb
         ∧ ((handle_request net lb request).1.1, (handle_request net lb request).2)
           = match proxy net lb server request with
             | (Returns response, calls) => (response, calls)
             | (Raises _, calls) => (backend_error, calls)
             end
         ∧ (∀ data, session lb = Some {| closed := false |} →
                    request_data request = Returns data →
                    (handle_request net lb request).2
                    = [outbound (heap lb server) request data]))
  ∧ sticky_sessions (handle_request net lb request).1.2 = sticky_sessions lb
  ∧ ∀ t : gmap string loc,
      let r := handle_request net (set_sticky_sessions t lb) request in
      r.1.1 = (handle_request net lb request).1.1
      ∧ r.2 = (handle_request net lb request).2
      ∧ r.1.2 = set_sticky_sessions t (handle_request net lb request).1.2.
Proof.
  intros Hanon.
  assert (∀ lb0, select_server lb0 request = _round_robin lb0) as Hsel.
  { intros lb0. unfold select_server. by destruct Hanon as [-> | ->]. }
  split.
  { unfold _get_session_id in Hanon.
    destruct (req_cookies request !! "session_id") as [[|c sid]|]; simpl in Hanon.
    - split; [by right | done].
    - by destruct Hanon.
    - split; [by left | done]. }
  split; [done|]. split; [by rewrite handle_request_state, Hsel|].
  split.
  { intros Hdown%healthy_servers_nil. unfold handle_request.
    by rewrite Hsel, _round_robin_empty. }
  split.
  { intros (s & Hs & Hup) hs.
    assert (healthy_servers lb ≠ []) as Hne.
    { intros Hnil. rewrite (proj1 (healthy_servers_nil lb) Hnil s Hs) in Hup. done. }
    destruct (_round_robin_pick lb Hne) as (server & Hlook & Hrr).
    exists server. split; [exact Hlook|].
    assert (handle_request net lb request
            = match proxy net lb server request with
              | (Returns response, calls) =>
                  (response, set_current_index (current_index lb + 1) lb, calls)
              | (Raises _, calls) =>
                  (backend_error, set_current_index (current_index lb + 1) lb, calls)
              end) as Hreq.
    { unfold handle_request. rewrite Hsel, Hrr.
      change (proxy net (set_current_index (current_index lb + 1) lb) server request)
        with (proxy net lb server request). done. }
    rewrite Hreq. rewrite proxy_cases.
    split_and!.
    - destruct (session lb) as [[[|]]|]; [| |done].
      + by destruct (request_data request).
      + destruct (request_data request) as [data|e]; [|done]. simpl.
        destruct (net _) as [response|e]; [|done]. by destruct (cr_read response).
    - destruct (session lb) as [[[|]]|]; [| |done].
      + by destruct (request_data request).
      + destruct (request_data request) as [data|e]; [|done]. simpl.
        destruct (net _) as [response|e]; [|done]. by destruct (cr_read response).
    - intros data -> ->. simpl.
      destruct (net _) as [response|e]; [|done]. by destruct (cr_read response). }
  split.
  - rewrite handle_request_state, Hsel. apply _round_robin_frame.
  - intros t r. subst r. unfold handle_request.
    rewrite !Hsel, _round_robin_sticky.
    destruct (_round_robin lb) as [[server|] lb']; simpl; [|done].
    change (proxy net (set_sticky_sessions t lb') server request)
      with (proxy net lb' server request).
    by destruct (proxy net lb' server request) as [[response|e] calls].
Qed.

(** An anonymous request to a balancer with a pinned session: it goes to
    B1, the cursor moves to 1 and the table is as before. *)
Lemma anonymous_request_round_robin_witness :
  (_get_session_id anonymous_request = None
   ∨ _get_session_id anonymous_request = Some "")
  ∧ (∃ s, s ∈ servers sticky_lb ∧ is_healthy (heap sticky_lb s) = true)
  ∧ (handle_request ok_network sticky_lb anonymous_request).1.2
    = set_current_index 1 sticky_lb
  ∧ (handle_request ok_network sticky_lb anonymous_request).2
    = [outbound (sample_heap 0%nat) anonymous_request None]
  ∧ sticky_sessions (handle_request ok_network sticky_lb anonymous_request).1.2
    = sticky_sessions sticky_lb.
Proof.
  assert (_get_session_id anonymous_request = None
          ∨ _get_session_id anonymous_request = Some "") as Hanon
    by (left; reflexivity).
  assert (∃ s, s ∈ servers sticky_lb ∧ is_healthy (heap sticky_lb s) = true) as Hup
    by (exists 0%nat; split; [left | reflexivity]).
  split; [exact Hanon|]. split; [exact Hup|].
  pose proof (anonymous_request_round_robin ok_network sticky_lb anonymous_request
                Hanon) as (_ & _ & _ & _ & Hsome & Htable & _).
  destruct (Hsome Hup) as (server & Hlook & Hstate & _ & Hcalls).
  assert (server = 0%nat) as -> by (vm_compute in Hlook; congruence).
  split; [exact Hstate|].
  split; [exact (Hcalls None eq_refl eq_refl) | exact Htable].
Defined.

(** C7, as the specification states it, fails: of two [Accept] lines only
    the second reaches the backend. *)
Lemma forwarding_headers_counterexample :
  ¬ (∀ (net : network) (lb : LoadLoad) (request : Request) (out : OutRequest),
       out ∈ (handle_request net lb request).2 →
       ∃ d, out_headers out = Some d
            ∧ ∀ k v, (k, v) ∈ req_headers request → lower k ≠ "host" →
                     d !! k = Some v).
Proof.
  intros Hclaim.
  destruct (Hclaim ok_network (start (__init__ sample_heap SERVERS))
              repeated_header_request
              (outbound (sample_heap 0%nat) repeated_header_request
                        (Some [x01; x02])))
    as (d & Hd & Hall).
  { vm_compute. left. }
  assert (d = forward_headers (req_headers repeated_header_request)) as ->
    by (simpl in Hd; injection Hd as <-; reflexivity).
  assert (("Accept", "text/html") ∈ req_headers repeated_header_request) as Hin
    by (right; left).
  assert (lower "Accept" ≠ "host") as Hname by by vm_compute.
  specialize (Hall "Accept" "text/html" Hin Hname).
  vm_compute in Hall. discriminate Hall.
Qed.

(** C7 at the failing input.  A [POST] with a [Host] line and two
    [Accept] lines is forwarded with the method, the url and the body the
    claim states and without [Host], but with one [Accept] line only: the
    line [Accept: text/html] of the inbound request is lost. *)
Theorem forwarding_drops_repeated_header :
  ("Accept", "text/html") ∈ req_headers repeated_header_request
  ∧ lower "Accept" ≠ "host"
  ∧ (handle_request ok_network (start (__init__ sample_heap SERVERS))
       repeated_header_request).2
    = [{| out_method := "POST";
          out_url := "http://localhost:8001/upload";
          out_headers := Some {["Accept" := "application/json"]};
          out_data := Some [x01; x02]; out_timeout := None |}].
Proof. split_and!; [right; left | by vm_compute | by vm_compute]. Qed.

(** X19.  For a selected backend, an open session and a readable body,
    [handle_request] issues exactly one outbound call.  Every outbound call
    it issues has the inbound method, the backend's url followed by the
    inbound path and query, the inbound body when there is one, and
    headers among which no name equals [host] up to case; when the inbound
    header names are pairwise distinct up to case, the headers are exactly
    the inbound headers without [Host]. *)
Theorem forwarded_request_shape (net : network) (lb : LoadLoad)
    (request : Request) (server : loc) :
  (select_server lb request).1 = Some server →
  (∀ data, session lb = Some {| closed := false |} →
           request_data request = Returns data →
           (handle_request net lb request).2
           = [outbound (heap lb server) request data])
  ∧ ∀ out, out ∈ (handle_request net lb request).2 →
      out_method out = req_method request
      ∧ out_url out = url (heap lb server) +:+ req_path_qs request
      ∧ (if req_body_exists request
         then ∃ body, req_read request = Returns body ∧ out_data out = Some body
         else out_data out = None)
      ∧ out_timeout out = None
      ∧ ∃ d, out_headers out = Some d
          ∧ (∀ k, lower k = "host" → d !! k = None)
          ∧ (NoDup (lower <$> (req_headers request).*1) →
             ∀ k v, d !! k = Some v ↔
                    (k, v) ∈ req_headers request ∧ lower k ≠ "host").
Proof.
  intros Hsel. rewrite (handle_request_selected _ _ _ _ Hsel), proxy_cases.
  split.
  - intros data -> ->. simpl.
    destruct (net _) as [response|e]; [|done]. by destruct (cr_read response).
  - intros out Hout.
    assert (∃ data, request_data request = Returns data
                    ∧ out = outbound (heap lb server) request data)
      as (data & Hdata & ->).
    { destruct (session lb) as [[[|]]|]; simpl in Hout;
        destruct (request_data request) as [data|e]; simpl in Hout;
        try by apply not_elem_of_nil in Hout.
      exists data. split; [done|].
      destruct (net _) as [response|e]; [destruct (cr_read response)|];
        by apply list_elem_of_singleton in Hout. }
    simpl. split_and!; [done | done | | done |].
    + unfold request_data in Hdata.
      destruct (req_body_exists request); [|by simplify_eq].
      destruct (req_read request) as [body|e]; simplify_eq. by exists body.
    + exists (forward_headers (req_headers request)). split_and!; [done | |].
      * intros k Hk. destruct (forward_headers _ !! k) as [v|] eqn:Hv; [|done].
        apply forward_headers_lookup in Hv as [? _]. done.
      * intros Hnd k v. apply forward_headers_distinct.
        by apply NoDup_fmap_1 in Hnd.
Qed.

Lemma forwarded_request_shape_witness :
  (select_server stale_lb second_cookie_request).1 = Some 0%nat
  ∧ (handle_request ok_network stale_lb second_cookie_request).2
    = [{| out_method := "POST";
          out_url := "http://localhost:8001/checkout";
          out_headers := Some {["Cookie" := "session_id=abc"]};
          out_data := Some [x01]; out_timeout := None |}].
Proof.
  assert ((select_server stale_lb second_cookie_request).1 = Some 0%nat) as Hsel
    by reflexivity.
  split; [exact Hsel|].
  exact (proj1 (forwarded_request_shape ok_network stale_lb second_cookie_request
                  0%nat Hsel) (Some [x01]) eq_refl eq_refl).
Defined.

(** C8, as the specification states it, fails: of two [Set-Cookie] lines
    the backend sends, only the first is relayed. *)
Lemma relay_headers_counterexample :
  ¬ (∀ (net : network) (lb : LoadLoad) (request : Request) (server : loc)
       (data : option (list Byte.byte)) (response : ClientResponse)
       (body : list Byte.byte),
       (select_server lb request).1 = Some server →
       session lb = Some {| closed := false |} →
       request_data request = Returns data →
       net (outbound (heap lb server) request data) = Returns response →
       cr_read response = Returns body →
       ∃ d, resp_headers (handle_request net lb request).1.1 = Some d
            ∧ ∀ k v, (k, v) ∈ cr_headers response → d !! k = Some v).
Proof.
  intros Hclaim.
  destruct (Hclaim ok_network (start (__init__ sample_heap SERVERS))
              cookie_request 0%nat None cookie_response [x6f; x6b])
    as (d & Hd & Hall); try reflexivity.
  assert (d = dict_of_headers (cr_headers cookie_response)) as ->
    by (vm_compute in Hd; injection Hd as <-; by vm_compute).
  assert (("Set-Cookie", "b=2") ∈ cr_headers cookie_response) as Hin
    by (right; right; left).
  specialize (Hall "Set-Cookie" "b=2" Hin).
  vm_compute in Hall. discriminate Hall.
Qed.

(** C8 at the failing input.  The backend answers 200 with a
    [Content-Type] line and two [Set-Cookie] lines; the status and the body
    are relayed, but of the two cookies only the first: the line
    [Set-Cookie: b=2] of the backend's answer is lost. *)
Theorem relay_drops_repeated_header :
  ("Set-Cookie", "b=2") ∈ cr_headers cookie_response
  ∧ (select_server (start (__init__ sample_heap SERVERS)) cookie_request).1
    = Some 0%nat
  ∧ (handle_request ok_network (start (__init__ sample_heap SERVERS))
       cookie_request).1.1
    = {| resp_text := None; resp_body := Some [x6f; x6b]; resp_status := 200;
         resp_headers := Some {["Content-Type" := "text/plain";
                                "Set-Cookie" := "a=1"]} |}.
Proof. split_and!; [right; right; left | done | by vm_compute]. Qed.

(** X20.  For a selected backend, [handle_request] always returns a
    response: either the fixed 502 "Backend error" response, or the relay
    of a backend answer whose body could be read.  A raised exception,
    from the call or from reading the answer, gives the 502 response.  A
    relayed answer keeps the backend's status and body; when the backend's
    header names are pairwise distinct up to case, it keeps exactly the
    backend's headers. *)
Theorem backend_failure_is_contained (net : network) (lb : LoadLoad)
    (request : Request) (server : loc) :
  (select_server lb request).1 = Some server →
  let res := (handle_request net lb request).1.1 in
  let relayed (response : ClientResponse) (body : list Byte.byte) :=
    resp_status res = cr_status response
    ∧ resp_body res = Some body
    ∧ resp_text res = None
    ∧ ∃ d, resp_headers res = Some d
        ∧ (NoDup (lower <$> (cr_headers response).*1) →
           ∀ k v, d !! k = Some v ↔ (k, v) ∈ cr_headers response) in
  (res = backend_error
   ∨ ∃ data response body,
       session lb = Some {| closed := false |}
       ∧ request_data request = Returns data
       ∧ net (outbound (heap lb server) request data) = Returns response
       ∧ cr_read response = Returns body
       ∧ relayed response body)
  ∧ (∀ data, session lb = Some {| closed := false |} →
             request_data request = Returns data →
       (∀ e, net (outbound (heap lb server) request data) = Raises e →
             res = backend_error)
       ∧ (∀ response e,
            net (outbound (heap lb server) request data) = Returns response →
            cr_read response = Raises e → res = backend_error)
       ∧ (∀ response body,
            net (outbound (heap lb server) request data) = Returns response →
            cr_read response = Returns body → relayed response body))
  ∧ resp_status backend_error = 502
  ∧ resp_text backend_error = Some "Backend error".
Proof.
  intros Hsel res relayed.
  assert (∀ response body,
            res = {| resp_text := None; resp_body := Some body;
                     resp_status := cr_status response;
                     resp_headers := Some (dict_of_headers (cr_headers response)) |} →
            relayed response body) as Hrelay.
  { intros response body ->. unfold relayed. simpl. split_and!; [done..|].
    eexists. split; [done|].
    intros Hnd k v. by apply dict_of_headers_distinct. }
  clearbody relayed. subst res.
  rewrite (handle_request_selected _ _ _ _ Hsel), proxy_cases in Hrelay |- *.
  split_and!; [| |done|done].
  - destruct (session lb) as [[[|]]|]; [| |by left].
    + destruct (request_data request); by left.
    + destruct (request_data request) as [data|e]; [|by left]. simpl.
      destruct (net _) as [response|e] eqn:Hnet; [|by left].
      destruct (cr_read response) as [body|e] eqn:Hread; [|by left].
      right. exists data, response, body. split_and!; [done..|].
      apply Hrelay. simpl. by rewrite Hnet, Hread.
  - intros data Hopen Hdata. rewrite Hopen, Hdata in Hrelay |- *. simpl in *.
    split_and!.
    + by intros e ->.
    + by intros response e -> ->.
    + intros response body Hnet Hread. apply Hrelay. simpl. by rewrite Hnet, Hread.
Qed.

(** A dead backend gives 502; a 204 answer is relayed as it is. *)
Lemma backend_failure_is_contained_witness :
  (select_server (start (__init__ sample_heap SERVERS)) cookie_request).1
  = Some 0%nat
  ∧ (handle_request dead_network (start (__init__ sample_heap SERVERS))
       cookie_request).1.1 = backend_error
  ∧ resp_status (handle_request no_content_network
                   (start (__init__ sample_heap SERVERS)) cookie_request).1.1
    = 204
  ∧ resp_body (handle_request no_content_network
                 (start (__init__ sample_heap SERVERS)) cookie_request).1.1
    = Some [].
Proof.
  assert ((select_server (start (__init__ sample_heap SERVERS)) cookie_request).1
          = Some 0%nat) as Hsel by reflexivity.
  split; [exact Hsel|].
  pose proof (proj1 (proj2 (backend_failure_is_contained dead_network _
                cookie_request 0%nat Hsel)) None eq_refl eq_refl) as (Hdead & _ & _).
  pose proof (proj1 (proj2 (backend_failure_is_contained no_content_network _
                cookie_request 0%nat Hsel)) None eq_refl eq_refl) as (_ & _ & Hok).
  destruct (Hok no_content_response [] eq_refl eq_refl) as (Hstatus & Hbody & _).
  split; [exact (Hdead ClientConnectionError eq_refl)|].
  split; [exact Hstatus | exact Hbody].
Defined.

(** ** Scenarios *)

(** Three healthy backends and four anonymous selections: B1, B2, B3, B1. *)
Example four_anonymous_selections :
  (round_robin_n 4 (__init__ sample_heap SERVERS)).1
  = [Some 0%nat; Some 1%nat; Some 2%nat; Some 0%nat].
Proof. reflexivity. Qed.

(** Session [abc] is pinned to B3; once B3 is down the next lookup moves it
    to B1 and records the new mapping. *)
Example sticky_session_moves :
  (_get_server sticky_lb "abc").1 = Some 2%nat
  ∧ (_get_server stale_lb "abc").1 = Some 0%nat
  ∧ sticky_sessions (_get_server stale_lb "abc").2 !! "abc" = Some 0%nat.
Proof. by vm_compute. Qed.

(** The proxied call for a request with a cookie, and the relayed answer. *)
Example proxied_call :
  (handle_request ok_network sticky_lb cookie_request).2
  = [{| out_method := "GET";
        out_url := "http://localhost:8003/cart?item=3";
        out_headers := Some {["Cookie" := "session_id=abc"]};
        out_data := None; out_timeout := None |}]
  ∧ resp_status (handle_request ok_network sticky_lb cookie_request).1.1 = 200.
Proof. by vm_compute. Qed.

(** A failed probe takes B3 out of the rotation. *)
Example failed_probe :
  healthy_servers (_check_health dead_network sticky_lb 2%nat).1
  = [0%nat; 1%nat].
Proof. reflexivity. Qed.

(** * Further properties of the code *)

(** ** What a selection can return *)

Section selected.
Implicit Types (lb : LoadLoad) (request : Request) (net : network).

Lemma _get_server_result lb session_id server :
  (_get_server lb session_id).1 = Some server →
  (sticky_sessions lb !! session_id = Some server
   ∧ is_healthy (heap lb server) = true)
  ∨ server ∈ healthy_servers lb.
Proof.
  unfold _get_server.
  destruct (sticky_sessions lb !! session_id) as [old|] eqn:Hold;
    [destruct (is_healthy (heap lb old)) eqn:Hh|].
  - intros [= <-]. by left.
  - rewrite _round_robin_sticky.
    pose proof (_round_robin_healthy lb server) as Hrr.
    destruct (_round_robin lb) as [[s|] lb']; simpl in *; [|done].
    intros [= <-]. right. by apply Hrr.
  - pose proof (_round_robin_healthy lb server) as Hrr.
    destruct (_round_robin lb) as [[s|] lb']; simpl in *; [|done].
    intros [= <-]. right. by apply Hrr.
Qed.

Lemma select_server_result lb request server :
  (select_server lb request).1 = Some server →
  (∃ session_id, sticky_sessions lb !! session_id = Some server
                 ∧ is_healthy (heap lb server) = true)
  ∨ server ∈ healthy_servers lb.
Proof.
  unfold select_server.
  destruct (_get_session_id request) as [sid|]; [destruct (truthy sid)|].
  - intros Hget. apply _get_server_result in Hget as [[? ?]|?];
      [left; by exists sid | by right].
  - intros Hrr. apply _round_robin_healthy in Hrr. by right.
  - intros Hrr. apply _round_robin_healthy in Hrr. by right.
Qed.

(** The outbound calls of [handle_request], read back. *)
Lemma handle_request_calls net lb request out :
  out ∈ (handle_request net lb request).2 →
  ∃ server data,
    (select_server lb request).1 = Some server
    ∧ request_data request = Returns data
    ∧ (handle_request net lb request).2 = [out]
    ∧ out = outbound (heap lb server) request data.
Proof.
  destruct (select_server lb request).1 as [server|] eqn:Hsel.
  - rewrite (handle_request_selected _ _ _ _ Hsel), proxy_cases.
    intros Hout. exists server.
    destruct (session lb) as [[[|]]|]; simpl in *;
      destruct (request_data request) as [data|e]; simpl in *;
      try by apply not_elem_of_nil in Hout.
    exists data.
    destruct (net _) as [response|e]; [destruct (cr_read response)|];
      apply list_elem_of_singleton in Hout as ->; done.
  - unfold handle_request.
    destruct (select_server lb request) as [[server|] lb']; simpl in *; [done|].
    intros Hout. by apply not_elem_of_nil in Hout.
Qed.
End selected.

(** X1.  In a reachable state, whatever [_round_robin], [_get_server] or
    the selection of [handle_request] returns is a member of the pool whose
    flag is up at the time of the call. *)
Theorem selected_backend_is_healthy_member (lb : LoadLoad) (server : loc) :
  reachable lb →
  ((_round_robin lb).1 = Some server
   ∨ (∃ session_id, (_get_server lb session_id).1 = Some server)
   ∨ (∃ request, (select_server lb request).1 = Some server)) →
  server ∈ servers lb ∧ is_healthy (heap lb server) = true.
Proof.
  intros (h & pool & Hrun) Hsel.
  pose proof (rtc_step_sticky_in_pool _ _ (__init___sticky_in_pool h pool) Hrun)
    as Hinv.
  assert ((∃ sid, sticky_sessions lb !! sid = Some server
                  ∧ is_healthy (heap lb server) = true)
          ∨ server ∈ healthy_servers lb) as [(sid & Hrec & Hup)|Hin].
  { destruct Hsel as [Hrr|[[sid Hget]|[request Hreq]]].
    - right. by apply _round_robin_healthy.
    - apply _get_server_result in Hget as [[? ?]|?]; [left; by exists sid | by right].
    - by apply select_server_result in Hreq. }
  - split; [by eapply Hinv | done].
  - by apply healthy_servers_healthy in Hin.
Qed.

Lemma selected_backend_is_healthy_member_witness :
  reachable (start (__init__ one_down_heap SERVERS))
  ∧ (_round_robin (start (__init__ one_down_heap SERVERS))).1 = Some 0%nat
  ∧ 0%nat ∈ SERVERS
  ∧ is_healthy (one_down_heap 0%nat) = true.
Proof.
  assert (reachable (start (__init__ one_down_heap SERVERS))) as Hreach.
  { exists one_down_heap, SERVERS. apply rtc_once, step_start. }
  assert ((_round_robin (start (__init__ one_down_heap SERVERS))).1 = Some 0%nat)
    as Hsel by reflexivity.
  split; [exact Hreach|]. split; [exact Hsel|].
  exact (selected_backend_is_healthy_member _ 0%nat Hreach (or_introl Hsel)).
Defined.

(** X2.  In a reachable state every outbound call of [handle_request] goes
    to the url of a pool member, followed by the inbound path and query,
    and the flag of that pool member is up in the state in which the
    request makes its selection. *)
Theorem proxied_call_targets_healthy_member (net : network) (lb : LoadLoad)
    (request : Request) (out : OutRequest) :
  reachable lb →
  out ∈ (handle_request net lb request).2 →
  ∃ server,
    server ∈ servers lb
    ∧ is_healthy (heap lb server) = true
    ∧ out_url out = url (heap lb server) +:+ req_path_qs request.
Proof.
  intros (h & pool & Hrun) Hout.
  pose proof (rtc_step_sticky_in_pool _ _ (__init___sticky_in_pool h pool) Hrun)
    as Hinv.
  apply handle_request_calls in Hout as (server & data & Hsel & _ & _ & ->).
  exists server. split_and!; [| |done].
  - apply select_server_result in Hsel as [(sid & Hrec & _)|Hin];
      [by eapply Hinv | by apply healthy_servers_healthy in Hin as [? _]].
  - apply select_server_result in Hsel as [(sid & _ & Hup)|Hin];
      [done | by apply healthy_servers_healthy in Hin as [_ ?]].
Qed.

Lemma proxied_call_targets_healthy_member_witness :
  reachable (start (__init__ one_down_heap SERVERS))
  ∧ outbound (one_down_heap 0%nat) cookie_request None
    ∈ (handle_request ok_network (start (__init__ one_down_heap SERVERS))
         cookie_request).2
  ∧ ∃ server,
      server ∈ SERVERS
      ∧ is_healthy (one_down_heap server) = true
      ∧ out_url (outbound (one_down_heap 0%nat) cookie_request None)
        = url (one_down_heap server) +:+ req_path_qs cookie_request.
Proof.
  assert (reachable (start (__init__ one_down_heap SERVERS))) as Hreach.
  { exists one_down_heap, SERVERS. apply rtc_once, step_start. }
  assert (outbound (one_down_heap 0%nat) cookie_request None
          ∈ (handle_request ok_network (start (__init__ one_down_heap SERVERS))
               cookie_request).2) as Hout by (vm_compute; left).
  split; [exact Hreach|]. split; [exact Hout|].
  exact (proxied_call_targets_healthy_member ok_network _ cookie_request _
           Hreach Hout).
Defined.

(** ** The table after a lookup *)

Lemma _get_server_lookup_after (lb : LoadLoad) (session_id : string) :
  sticky_sessions (_get_server lb session_id).2 !! session_id
  = (_get_server lb session_id).1
  ∧ ∀ other, other ≠ session_id →
      sticky_sessions (_get_server lb session_id).2 !! other
      = sticky_sessions lb !! other.
Proof.
  unfold _get_server.
  pose proof (_round_robin_frame lb) as (_ & _ & Ht & _).
  destruct (sticky_sessions lb !! session_id) as [old|] eqn:Hold;
    [destruct (is_healthy (heap lb old)); [done|] |].
  - rewrite _round_robin_sticky.
    destruct (_round_robin lb) as [[s|] lb']; simpl in *.
    + split; [by rewrite lookup_insert_eq|].
      intros other Hne. by rewrite lookup_insert_ne, lookup_delete_ne.
    + split; [by rewrite lookup_delete_eq|].
      intros other Hne. by rewrite lookup_delete_ne.
  - destruct (_round_robin lb) as [[s|] lb']; simpl in *; rewrite Ht.
    + split; [by rewrite lookup_insert_eq|].
      intros other Hne. by rewrite lookup_insert_ne.
    + done.
Qed.

(** X3.  After [_get_server] the table holds for the session exactly what
    the lookup returned (no entry when it returned nothing), and every
    other session's entry is as before. *)
Theorem get_server_table (lb : LoadLoad) (session_id : string) :
  sticky_sessions (_get_server lb session_id).2 !! session_id
  = (_get_server lb session_id).1
  ∧ ∀ other, other ≠ session_id →
      sticky_sessions (_get_server lb session_id).2 !! other
      = sticky_sessions lb !! other.
Proof. apply _get_server_lookup_after. Qed.

Lemma _get_server_again (lb : LoadLoad) (session_id : string) (server : loc) :
  (_get_server lb session_id).1 = Some server →
  _get_server (_get_server lb session_id).2 session_id
  = (Some server, (_get_server lb session_id).2).
Proof.
  intros Hres.
  pose proof (_get_server_lookup_after lb session_id) as [Hrec _].
  pose proof (_get_server_frame lb session_id) as (Hheap & _ & _).
  assert (is_healthy (heap lb server) = true) as Hup.
  { apply _get_server_result in Hres as [[_ ?]|Hin]; [done|].
    by apply healthy_servers_healthy in Hin as [_ ?]. }
  rewrite Hres in Hrec.
  destruct (_get_server lb session_id) as [res lb']. simpl in *.
  unfold _get_server. by rewrite Hrec, Hheap, Hup.
Qed.

(** X4.  A lookup that returned a backend can be repeated at once: the
    second lookup returns the same backend and changes nothing, so a
    session does not consume the rotation twice. *)
Theorem get_server_repeat (lb : LoadLoad) (session_id : string) (server : loc) :
  (_get_server lb session_id).1 = Some server →
  _get_server (_get_server lb session_id).2 session_id
  = (Some server, (_get_server lb session_id).2).
Proof. apply _get_server_again. Qed.

Lemma get_server_repeat_witness :
  (_get_server stale_lb "abc").1 = Some 0%nat
  ∧ _get_server (_get_server stale_lb "abc").2 "abc"
    = (Some 0%nat, (_get_server stale_lb "abc").2).
Proof.
  assert ((_get_server stale_lb "abc").1 = Some 0%nat) as Hres by reflexivity.
  split; [exact Hres|].
  exact (get_server_repeat stale_lb "abc" 0%nat Hres).
Defined.

Lemma _get_server_miss (lb : LoadLoad) (session_id : string) :
  (sticky_sessions lb !! session_id = None
   ∨ ∃ stale, sticky_sessions lb !! session_id = Some stale
              ∧ is_healthy (heap lb stale) = false) →
  (_get_server lb session_id).1 = (_round_robin lb).1
  ∧ current_index (_get_server lb session_id).2
    = current_index (_round_robin lb).2.
Proof.
  unfold _get_server. intros [->|(stale & -> & ->)].
  - by destruct (_round_robin lb) as [[s|] lb'].
  - rewrite _round_robin_sticky. by destruct (_round_robin lb) as [[s|] lb'].
Qed.

(** X5.  A lookup that finds no entry, or a stale one, takes its backend
    from the shared rotation: it returns what [_round_robin] returns in
    that state and leaves the cursor where [_round_robin] leaves it. *)
Theorem get_server_miss_shares_cursor (lb : LoadLoad) (session_id : string) :
  (sticky_sessions lb !! session_id = None
   ∨ ∃ stale, sticky_sessions lb !! session_id = Some stale
              ∧ is_healthy (heap lb stale) = false) →
  (_get_server lb session_id).1 = (_round_robin lb).1
  ∧ current_index (_get_server lb session_id).2
    = current_index (_round_robin lb).2.
Proof. apply _get_server_miss. Qed.

Lemma get_server_miss_shares_cursor_witness :
  (sticky_sessions stale_lb !! "abc" = None
   ∨ ∃ stale, sticky_sessions stale_lb !! "abc" = Some stale
              ∧ is_healthy (heap stale_lb stale) = false)
  ∧ (_get_server stale_lb "abc").1 = (_round_robin stale_lb).1
  ∧ current_index (_get_server stale_lb "abc").2
    = current_index (_round_robin stale_lb).2.
Proof.
  assert (sticky_sessions stale_lb !! "abc" = None
          ∨ ∃ stale, sticky_sessions stale_lb !! "abc" = Some stale
                     ∧ is_healthy (heap stale_lb stale) = false) as Hmiss
    by (right; exists 2%nat; split; reflexivity).
  split; [exact Hmiss|].
  exact (get_server_miss_shares_cursor stale_lb "abc" Hmiss).
Defined.

(** ** What a run of the balancer keeps *)

Section runs.
Implicit Types (lb : LoadLoad) (request : Request) (net : network).

Lemma _round_robin_moves_cursor lb :
  current_index (_round_robin lb).2 = current_index lb
  ∨ current_index (_round_robin lb).2 = current_index lb + 1.
Proof.
  destruct (decide (healthy_servers lb = [])) as [Hnil|Hne].
  - left. by rewrite _round_robin_empty.
  - right. by destruct (_round_robin_pick lb Hne) as (server & _ & ->).
Qed.

Lemma _get_server_moves_cursor lb session_id :
  current_index (_get_server lb session_id).2 = current_index lb
  ∨ current_index (_get_server lb session_id).2 = current_index lb + 1.
Proof.
  unfold _get_server. pose proof (_round_robin_moves_cursor lb) as Hrr.
  destruct (sticky_sessions lb !! session_id) as [old|];
    [destruct (is_healthy (heap lb old)); [by left|] |].
  - rewrite _round_robin_sticky. by destruct (_round_robin lb) as [[s|] lb'].
  - by destruct (_round_robin lb) as [[s|] lb'].
Qed.

Lemma select_server_moves_cursor lb request :
  current_index (select_server lb request).2 = current_index lb
  ∨ current_index (select_server lb request).2 = current_index lb + 1.
Proof.
  unfold select_server.
  destruct (_get_session_id request) as [sid|]; [destruct (truthy sid)|];
    first [apply _get_server_moves_cursor | apply _round_robin_moves_cursor].
Qed.

Lemma step_cursor lb lb' :
  step lb lb' →
  current_index lb' = current_index lb ∨ current_index lb' = current_index lb + 1.
Proof.
  destruct 1 as [lb|lb|lb|lb sid|net lb server|net lb request].
  - by left.
  - left. unfold stop. by destruct (session lb).
  - apply _round_robin_moves_cursor.
  - apply _get_server_moves_cursor.
  - left. apply _check_health_frame.
  - rewrite handle_request_state. apply select_server_moves_cursor.
Qed.

Lemma _check_health_identity net lb server l :
  host (heap (_check_health net lb server).1 l) = host (heap lb l)
  ∧ port (heap (_check_health net lb server).1 l) = port (heap lb l).
Proof.
  unfold _check_health.
  destruct (session_request net (session lb) (health_probe (heap lb server)))
    as [r calls]. simpl.
  destruct (decide (l = server)) as [->|Hne].
  - by rewrite fn_lookup_insert.
  - by rewrite fn_lookup_insert_ne.
Qed.

Lemma step_identity lb lb' l :
  step lb lb' →
  host (heap lb' l) = host (heap lb l) ∧ port (heap lb' l) = port (heap lb l).
Proof.
  destruct 1 as [lb|lb|lb|lb sid|net lb server|net lb request].
  - done.
  - unfold stop. by destruct (session lb).
  - by pose proof (_round_robin_frame lb) as (-> & _).
  - by pose proof (_get_server_frame lb sid) as (-> & _).
  - apply _check_health_identity.
  - rewrite handle_request_state.
    by pose proof (select_server_frame lb request) as (-> & _).
Qed.
End runs.

(** X6.  The cursor never goes back: over [n] operations of any kind it
    grows by at least zero and at most [n]. *)
Theorem run_cursor_bounds (n : nat) (lb lb' : LoadLoad) :
  nsteps step n lb lb' →
  current_index lb ≤ current_index lb' ≤ current_index lb + Z.of_nat n.
Proof.
  induction 1 as [lb|n lb lb1 lb2 Hstep _ IH]; [lia|].
  apply step_cursor in Hstep. lia.
Qed.

Lemma run_cursor_bounds_witness :
  nsteps step 2 (__init__ sample_heap SERVERS)
    (_round_robin (_get_server (__init__ sample_heap SERVERS) "abc").2).2
  ∧ 0 ≤ current_index
          (_round_robin (_get_server (__init__ sample_heap SERVERS) "abc").2).2
      ≤ 0 + 2.
Proof.
  assert (nsteps step 2 (__init__ sample_heap SERVERS)
            (_round_robin (_get_server (__init__ sample_heap SERVERS) "abc").2).2)
    as Hrun.
  { eapply nsteps_l; [apply (step_get_server _ "abc")|].
    apply nsteps_once, step_round_robin. }
  split; [exact Hrun|].
  exact (run_cursor_bounds 2 _ _ Hrun).
Defined.

(** X7.  No operation changes the pool or the address of a backend: along
    any run the list of servers, and the host, port and url of every
    [Server] object, stay what they were. *)
Theorem run_pool_and_addresses_fixed (lb lb' : LoadLoad) :
  rtc step lb lb' →
  servers lb' = servers lb
  ∧ ∀ l, host (heap lb' l) = host (heap lb l)
         ∧ port (heap lb' l) = port (heap lb l)
         ∧ url (heap lb' l) = url (heap lb l).
Proof.
  induction 1 as [lb|lb lb1 lb2 Hstep _ [IHs IHa]]; [done|].
  split; [by rewrite IHs, (step_servers _ _ Hstep)|].
  intros l. destruct (IHa l) as (Hh & Hp & _).
  destruct (step_identity _ _ l Hstep) as [Hh1 Hp1].
  assert (host (heap lb2 l) = host (heap lb l)) as Hhost by congruence.
  assert (port (heap lb2 l) = port (heap lb l)) as Hport by congruence.
  split_and!; [done..|]. unfold url. by rewrite Hhost, Hport.
Qed.

Lemma run_pool_and_addresses_fixed_witness :
  rtc step sticky_lb (_check_health dead_network sticky_lb 2%nat).1
  ∧ servers (_check_health dead_network sticky_lb 2%nat).1 = servers sticky_lb.
Proof.
  assert (rtc step sticky_lb (_check_health dead_network sticky_lb 2%nat).1)
    as Hrun by apply rtc_once, step_check_health.
  split; [exact Hrun|].
  exact (proj1 (run_pool_and_addresses_fixed _ _ Hrun)).
Defined.

(** X8.  [handle_request] issues at most one outbound call (it never
    retries), leaves the health flags, the pool and the session alone,
    moves the cursor by at most one, and touches no table entry but the
    one of the request's own session id.  When it selects no backend it
    makes no call and the cursor stays. *)
Theorem handle_request_footprint (net : network) (lb : LoadLoad)
    (request : Request) :
  let res := handle_request net lb request in
  (length res.2 ≤ 1)%nat
  ∧ heap res.1.2 = heap lb
  ∧ servers res.1.2 = servers lb
  ∧ session res.1.2 = session lb
  ∧ (current_index res.1.2 = current_index lb
     ∨ current_index res.1.2 = current_index lb + 1)
  ∧ (∀ other, _get_session_id request ≠ Some other →
       sticky_sessions res.1.2 !! other = sticky_sessions lb !! other)
  ∧ ((select_server lb request).1 = None →
       res.1.1 = no_servers_available ∧ res.2 = []
       ∧ current_index res.1.2 = current_index lb).
Proof.
  intros res. subst res. rewrite handle_request_state.
  pose proof (select_server_frame lb request) as (Hheap & Hservers & Hsession).
  split_and!; [ | done | done | done | apply select_server_moves_cursor | | ].
  - destruct (handle_request net lb request).2 as [|out calls] eqn:Hcalls;
      [simpl; lia|].
    assert (out ∈ (handle_request net lb request).2) as Hout
      by (rewrite Hcalls; left).
    apply handle_request_calls in Hout as (_ & _ & _ & _ & Hone & _).
    rewrite Hcalls in Hone. injection Hone as ->. simpl. lia.
  - intros other Hother. unfold select_server.
    destruct (_get_session_id request) as [sid|]; [destruct (truthy sid)|].
    + apply _get_server_lookup_after. congruence.
    + by pose proof (_round_robin_frame lb) as (_ & _ & -> & _).
    + by pose proof (_round_robin_frame lb) as (_ & _ & -> & _).
  - intros Hnone. unfold handle_request.
    assert (current_index (select_server lb request).2 = current_index lb) as Hcur.
    { revert Hnone. unfold select_server.
      destruct (_get_session_id request) as [sid|]; [destruct (truthy sid)|].
      - intros Hnone.
        destruct (sticky_sessions lb !! sid) as [old|] eqn:Hold.
        + destruct (is_healthy (heap lb old)) eqn:Hup.
          * unfold _get_server in *. by rewrite Hold, Hup in *.
          * destruct (_get_server_miss lb sid) as [Hres ->];
              [right; by exists old|].
            rewrite Hres in Hnone.
            destruct (decide (healthy_servers lb = [])) as [Hnil|Hne].
            -- by rewrite _round_robin_empty.
            -- by destruct (_round_robin_pick lb Hne) as (s & _ & Heq);
                 rewrite Heq in Hnone.
        + destruct (_get_server_miss lb sid) as [Hres ->];
            [by left|].
          rewrite Hres in Hnone.
          destruct (decide (healthy_servers lb = [])) as [Hnil|Hne].
          * by rewrite _round_robin_empty.
          * by destruct (_round_robin_pick lb Hne) as (s & _ & Heq);
              rewrite Heq in Hnone.
      - intros Hnone. destruct (decide (healthy_servers lb = [])) as [Hnil|Hne].
        + by rewrite _round_robin_empty.
        + by destruct (_round_robin_pick lb Hne) as (s & _ & Heq);
            rewrite Heq in Hnone.
      - intros Hnone. destruct (decide (healthy_servers lb = [])) as [Hnil|Hne].
        + by rewrite _round_robin_empty.
        + by destruct (_round_robin_pick lb Hne) as (s & _ & Heq);
            rewrite Heq in Hnone. }
    destruct (select_server lb request) as [[server|] lb0]; simpl in *; done.
Qed.

(** ** Any number of selections *)



(** X10.  With no backend healthy, any number of [_round_robin] calls
    return nothing every time and leave the balancer exactly as it was. *)
Theorem round_robin_n_all_down (n : nat) (lb : LoadLoad) :
  healthy_servers lb = [] →
  round_robin_n n lb = (replicate n None, lb).
Proof.
  intros Hnil. induction n as [|n IH]; [done|].
  cbn [round_robin_n]. by rewrite _round_robin_empty, IH.
Qed.

Lemma round_robin_n_all_down_witness :
  healthy_servers (__init__ down_heap SERVERS) = []
  ∧ round_robin_n 3 (__init__ down_heap SERVERS)
    = ([None; None; None], __init__ down_heap SERVERS).
Proof.
  assert (healthy_servers (__init__ down_heap SERVERS) = []) as Hnil
    by reflexivity.
  split; [exact Hnil|].
  exact (round_robin_n_all_down 3 _ Hnil).
Defined.

(** ** The prober *)

Section prober.
Implicit Types (lb : LoadLoad) (net : network) (pool : list loc).



End prober.



(** X12.  A balancer that was never started, or that was stopped, makes no
    network call at all: [handle_request] answers with one of its two fixed
    responses (503 or 502), and a health check marks the backend unhealthy
    without probing it. *)
Theorem no_open_session_no_network (net : network) (lb : LoadLoad)
    (request : Request) (server : loc) :
  session lb = None ∨ session lb = Some {| closed := true |} →
  (handle_request net lb request).2 = []
  ∧ ((handle_request net lb request).1.1 = no_servers_available
     ∨ (handle_request net lb request).1.1 = backend_error)
  ∧ (_check_health net lb server).2 = []
  ∧ is_healthy (heap (_check_health net lb server).1 server) = false.
Proof.
  intros Hsession.
  assert ((_check_health net lb server).2 = []
          ∧ is_healthy (heap (_check_health net lb server).1 server) = false)
    as [Hcalls Hflag].
  { unfold _check_health, session_request.
    destruct Hsession as [-> | ->]; simpl; by rewrite fn_lookup_insert. }
  split_and!; [| |done|done].
  - destruct (handle_request net lb request).2 as [|out calls] eqn:Hc; [done|].
    assert (out ∈ (handle_request net lb request).2) as Hout
      by (rewrite Hc; left).
    apply handle_request_calls in Hout as (s & data & Hsel & Hdata & Hone & _).
    rewrite (handle_request_selected _ _ _ _ Hsel), proxy_cases in Hone.
    destruct Hsession as [Hs | Hs]; rewrite Hs, ?Hdata in Hone; done.
  - destruct (select_server lb request).1 as [s|] eqn:Hsel.
    + right. rewrite (handle_request_selected _ _ _ _ Hsel), proxy_cases.
      destruct Hsession as [-> | ->]; [done|].
      by destruct (request_data request).
    + left. unfold handle_request.
      by destruct (select_server lb request) as [[s|] lb']; simpl in *.
Qed.

Lemma no_open_session_no_network_witness :
  (session stopped_lb = None ∨ session stopped_lb = Some {| closed := true |})
  ∧ (handle_request ok_network stopped_lb cookie_request).2 = []
  ∧ (handle_request ok_network stopped_lb cookie_request).1.1 = backend_error.
Proof.
  assert (session stopped_lb = None
          ∨ session stopped_lb = Some {| closed := true |}) as Hs
    by (right; reflexivity).
  split; [exact Hs|].
  split; [exact (proj1 (no_open_session_no_network ok_network stopped_lb
                          cookie_request 0%nat Hs)) | reflexivity].
Defined.

(** ** Sticky routing across requests *)



(** ** Availability *)

Section availability.
Implicit Types (lb : LoadLoad) (request : Request) (net : network).

Lemma _get_server_some_healthy lb session_id :
  healthy_servers lb ≠ [] → is_Some (_get_server lb session_id).1.
Proof.
  intros Hne. destruct (_round_robin_pick lb Hne) as (s & _ & Hrr).
  unfold _get_server.
  destruct (sticky_sessions lb !! session_id) as [old|];
    [destruct (is_healthy (heap lb old)); [by eexists|] |].
  - rewrite _round_robin_sticky, Hrr. by eexists.
  - rewrite Hrr. by eexists.
Qed.

Lemma select_server_some_healthy lb request :
  healthy_servers lb ≠ [] → is_Some (select_server lb request).1.
Proof.
  intros Hne. unfold select_server.
  destruct (_get_session_id request) as [sid|]; [destruct (truthy sid)|].
  - by apply _get_server_some_healthy.
  - destruct (_round_robin_pick lb Hne) as (s & _ & ->). by eexists.
  - destruct (_round_robin_pick lb Hne) as (s & _ & ->). by eexists.
Qed.

Lemma select_server_not_down lb request server :
  is_healthy (heap lb server) = false → (select_server lb request).1 ≠ Some server.
Proof.
  intros Hdown Hsel.
  apply select_server_result in Hsel as [(sid & _ & Hup)|Hin]; [congruence|].
  apply healthy_servers_healthy in Hin as [_ Hup]. congruence.
Qed.

Lemma check_all_closed net pool lb :
  session lb = None ∨ session lb = Some {| closed := true |} →
  (check_all net lb pool).2 = []
  ∧ (∀ s, s ∈ pool → is_healthy (heap (check_all net lb pool).1 s) = false)
  ∧ (∀ s, s ∉ pool → heap (check_all net lb pool).1 s = heap lb s)
  ∧ servers (check_all net lb pool).1 = servers lb
  ∧ session (check_all net lb pool).1 = session lb.
Proof.
  revert lb. induction pool as [|x pool IH]; intros lb Hclosed.
  - simpl. split_and!; try done. intros s Hs. by apply not_elem_of_nil in Hs.
  - simpl.
    pose proof (_check_health_frame net lb x) as (Hsv & _ & _ & Hse).
    assert ((_check_health net lb x).2 = []
            ∧ is_healthy (heap (_check_health net lb x).1 x) = false
            ∧ ∀ s, s ≠ x → heap (_check_health net lb x).1 s = heap lb s)
      as (Hcalls & Hflag & Hother).
    { unfold _check_health, session_request.
      destruct Hclosed as [-> | ->]; simpl; rewrite fn_lookup_insert;
        (split_and!; [done | done |]);
        intros s Hs; by rewrite fn_lookup_insert_ne. }
    destruct (_check_health net lb x) as [lb1 calls1]. simpl in *.
    destruct (IH lb1) as (IHcalls & IHflag & IHother & IHsv & IHse);
      [by rewrite Hse|].
    destruct (check_all net lb1 pool) as [lb2 calls2]. simpl in *.
    split_and!; try congruence.
    + by rewrite Hcalls, IHcalls.
    + intros s Hs. destruct (decide (s ∈ pool)) as [Hin|Hout]; [by apply IHflag|].
      apply elem_of_cons in Hs as [->|Hs]; [|done].
      by rewrite (IHother x Hout).
    + intros s Hs. apply not_elem_of_cons in Hs as [Hne Hs].
      by rewrite (IHother s Hs), (Hother s Hne).
Qed.
End availability.

(** X14.  In a reachable state [handle_request] answers with its own
    "No servers available" response exactly when every pool member is
    unhealthy: as long as one pool member is healthy, every request is
    given a backend. *)
Theorem unavailable_iff_all_down (net : network) (lb : LoadLoad)
    (request : Request) :
  reachable lb →
  ((handle_request net lb request).1.1 = no_servers_available
   ↔ ∀ s, s ∈ servers lb → is_healthy (heap lb s) = false)
  ∧ ((∃ s, s ∈ servers lb ∧ is_healthy (heap lb s) = true) →
     is_Some (select_server lb request).1
     ∧ (handle_request net lb request).1.1 ≠ no_servers_available).
Proof.
  intros (h & pool & Hrun).
  pose proof (rtc_step_sticky_in_pool _ _ (__init___sticky_in_pool h pool) Hrun)
    as Hinv.
  assert ((handle_request net lb request).1.1 = no_servers_available
          ↔ healthy_servers lb = []) as Hiff.
  { split.
    - intros Hresp. destruct (decide (healthy_servers lb = [])) as [|Hne]; [done|].
      destruct (select_server_some_healthy lb request Hne) as [s Hsel].
      rewrite (handle_request_selected _ _ _ _ Hsel), proxy_cases in Hresp.
      destruct (session lb) as [[[|]]|]; simpl in Hresp;
        destruct (request_data request); simpl in Hresp; try done.
      destruct (net _) as [response|e]; [destruct (cr_read response)|]; done.
    - intros Hnil. unfold handle_request.
      assert ((select_server lb request).1 = None) as Hsel.
      { unfold select_server.
        destruct (_get_session_id request) as [sid|]; [destruct (truthy sid)|].
        - by apply _get_server_all_down.
        - by rewrite _round_robin_empty.
        - by rewrite _round_robin_empty. }
      by destruct (select_server lb request) as [[s|] lb']; simpl in *. }
  split; [by rewrite Hiff, healthy_servers_nil|].
  intros (s & Hs & Hup).
  assert (healthy_servers lb ≠ []) as Hne.
  { intros Hnil. rewrite (proj1 (healthy_servers_nil lb) Hnil s Hs) in Hup. done. }
  split; [by apply select_server_some_healthy | by rewrite Hiff].
Qed.

(** An all-down pool answers 503; with B3 alone down a request is served. *)
Lemma unavailable_iff_all_down_witness :
  reachable (start (__init__ down_heap SERVERS))
  ∧ (handle_request ok_network (start (__init__ down_heap SERVERS))
       anonymous_request).1.1 = no_servers_available
  ∧ reachable (start (__init__ one_down_heap SERVERS))
  ∧ (∃ s, s ∈ SERVERS ∧ is_healthy (one_down_heap s) = true)
  ∧ is_Some (select_server (start (__init__ one_down_heap SERVERS))
               cookie_request).1
  ∧ (handle_request dead_network (start (__init__ one_down_heap SERVERS))
       cookie_request).1.1 ≠ no_servers_available.
Proof.
  assert (reachable (start (__init__ down_heap SERVERS))) as Hdown.
  { exists down_heap, SERVERS. apply rtc_once, step_start. }
  assert (reachable (start (__init__ one_down_heap SERVERS))) as Hone.
  { exists one_down_heap, SERVERS. apply rtc_once, step_start. }
  assert (∃ s, s ∈ SERVERS ∧ is_healthy (one_down_heap s) = true) as Hup
    by (exists 0%nat; split; [left | reflexivity]).
  split; [exact Hdown|].
  split.
  { apply (proj1 (unavailable_iff_all_down ok_network _ anonymous_request Hdown)).
    intros s _. reflexivity. }
  split; [exact Hone|]. split; [exact Hup|].
  exact (proj2 (unavailable_iff_all_down dead_network _ cookie_request Hone) Hup).
Defined.

(** X15.  A backend whose health check did not get a 200 answer is given
    to no request that follows, whether the request has a sticky entry for
    it or not, until a later check marks it healthy again. *)
Theorem failed_backend_is_not_selected (net : network) (lb : LoadLoad)
    (server : loc) (request : Request) :
  (∀ response, net (health_probe (heap lb server)) = Returns response →
               cr_status response ≠ 200) →
  let lb' := (_check_health net lb server).1 in
  is_healthy (heap lb' server) = false
  ∧ (select_server lb' request).1 ≠ Some server
  ∧ (_round_robin lb').1 ≠ Some server
  ∧ ∀ session_id, (_get_server lb' session_id).1 ≠ Some server.
Proof.
  intros Hbad lb'.
  assert (is_healthy (heap lb' server) = false) as Hdown.
  { subst lb'. unfold _check_health, session_request.
    destruct (session lb) as [[[|]]|]; simpl; rewrite fn_lookup_insert; simpl;
      try done.
    destruct (net _) as [response|e] eqn:Hnet; [|done].
    apply bool_decide_eq_false. by apply Hbad. }
  split_and!; [done | by apply select_server_not_down | |].
  - intros Hrr. apply _round_robin_healthy, healthy_servers_healthy in Hrr as [_ ?].
    congruence.
  - intros sid Hget. apply _get_server_result in Hget as [[_ ?]|Hin]; [congruence|].
    apply healthy_servers_healthy in Hin as [_ ?]. congruence.
Qed.

Lemma failed_backend_is_not_selected_witness :
  (∀ response, dead_network (health_probe (heap sticky_lb 2%nat)) = Returns response →
               cr_status response ≠ 200)
  ∧ (select_server (_check_health dead_network sticky_lb 2%nat).1 cookie_request).1
    ≠ Some 2%nat.
Proof.
  assert (∀ response,
            dead_network (health_probe (heap sticky_lb 2%nat)) = Returns response →
            cr_status response ≠ 200) as Hbad by (intros response H; discriminate H).
  split; [exact Hbad|].
  exact (proj1 (proj2 (failed_backend_is_not_selected dead_network sticky_lb 2%nat
                         cookie_request Hbad))).
Defined.

(** X16.  [stop] closes the session but does not end the prober: a pass of
    the prober over a balancer with no open session sends no probe and
    marks every pool member unhealthy, so that afterwards every request is
    answered with the 503 response. *)
Theorem prober_without_session_empties_rotation (net : network) (lb : LoadLoad) :
  session lb = None ∨ session lb = Some {| closed := true |} →
  let lb' := (health_check_pass net lb).1 in
  (health_check_pass net lb).2 = []
  ∧ (∀ s, s ∈ servers lb → is_healthy (heap lb' s) = false)
  ∧ healthy_servers lb' = []
  ∧ (_round_robin lb').1 = None.
Proof.
  intros Hclosed lb'.
  destruct (check_all_closed net (servers lb) lb Hclosed)
    as (Hcalls & Hflag & _ & Hsv & _).
  fold (health_check_pass net lb) in *. fold lb' in Hflag, Hsv.
  assert (healthy_servers lb' = []) as Hnil.
  { apply healthy_servers_nil. intros s Hs. apply Hflag. by rewrite <- Hsv. }
  split_and!; [done | done | done | by rewrite _round_robin_empty].
Qed.

Lemma prober_without_session_empties_rotation_witness :
  (session stopped_lb = None ∨ session stopped_lb = Some {| closed := true |})
  ∧ healthy_servers (health_check_pass ok_network stopped_lb).1 = [].
Proof.
  assert (session stopped_lb = None
          ∨ session stopped_lb = Some {| closed := true |}) as Hs
    by (right; reflexivity).
  split; [exact Hs|].
  exact (proj1 (proj2 (proj2 (prober_without_session_empties_rotation
                                ok_network stopped_lb Hs)))).
Defined.

(** ** Balance of the rotation *)

Section balance.
Implicit Types (lb : LoadLoad) (hs : list loc) (results : list (option loc)).

Lemma round_robin_n_app (a b : nat) lb :
  round_robin_n (a + b) lb
  = ((round_robin_n a lb).1 ++ (round_robin_n b (round_robin_n a lb).2).1,
     (round_robin_n b (round_robin_n a lb).2).2).
Proof.
  revert lb. induction a as [|a IH]; intros lb; simpl.
  - by destruct (round_robin_n b lb).
  - destruct (_round_robin lb) as [r lb1]. rewrite IH.
    by destruct (round_robin_n a lb1) as [rs lb2].
Qed.

Lemma round_robin_n_healthy (n : nat) lb :
  healthy_servers (round_robin_n n lb).2 = healthy_servers lb.
Proof.
  revert lb. induction n as [|n IH]; intros lb; [done|]. simpl.
  pose proof (_round_robin_frame lb) as (Hheap & Hservers & _).
  specialize (IH (_round_robin lb).2).
  destruct (_round_robin lb) as [r lb1]. simpl in *.
  destruct (round_robin_n n lb1) as [rs lb2]. simpl in *.
  rewrite IH. unfold healthy_servers. by rewrite Hheap, Hservers.
Qed.

Lemma round_robin_n_prefix (n : nat) lb :
  healthy_servers lb ≠ [] → (n ≤ length (healthy_servers lb))%nat →
  (round_robin_n n lb).1
  = take n (round_robin_n (length (healthy_servers lb)) lb).1.
Proof.
  intros Hne Hn. rewrite !round_robin_n_unfold by done. simpl.
  by rewrite <- fmap_take, take_seq, Nat.min_l.
Qed.

Lemma round_robin_n_cycle lb :
  healthy_servers lb ≠ [] →
  (round_robin_n (length (healthy_servers lb)) lb).1
  ≡ₚ Some <$> healthy_servers lb.
Proof.
  intros Hne. rewrite round_robin_n_unfold by done. simpl.
  set (hs := healthy_servers lb). set (N := length hs).
  set (r := Z.to_nat (current_index lb `mod` Z.of_nat N)).
  assert (r < N)%nat as Hr by by apply cursor_in_range.
  transitivity (Some <$> rotate r hs);
    [|apply fmap_Permutation; unfold rotate;
      by rewrite Permutation_app_comm, take_drop].
  apply reflexive_eq, list_eq. intros i.
  rewrite !list_lookup_fmap.
  destruct (decide (i < N)%nat) as [Hi|Hi].
  - rewrite lookup_seq_lt, lookup_rotate_r by done. simpl.
    fold N. unfold rotate_nat_add.
    replace ((Z.of_nat r + Z.of_nat i) `mod` Z.of_nat N)
      with ((current_index lb + Z.of_nat i) `mod` Z.of_nat N).
    + pose proof (cursor_in_range (current_index lb + Z.of_nat i) _ Hne) as Hlt.
      fold hs N in Hlt. destruct (lookup_lt_is_Some_2 _ _ Hlt) as [x Hx].
      by rewrite Hx.
    + subst r. rewrite Z2Nat.id by (apply Z.mod_pos_bound; lia).
      by rewrite Zplus_mod_idemp_l.
  - rewrite lookup_seq_ge by lia. simpl.
    rewrite lookup_ge_None_2; [done|]. rewrite length_rotate. fold N. lia.
Qed.

Lemma times_selected_app (s : loc) results1 results2 :
  times_selected s (results1 ++ results2)
  = (times_selected s results1 + times_selected s results2)%nat.
Proof. unfold times_selected. by rewrite filter_app, length_app. Qed.

Lemma times_selected_take (s : loc) (n : nat) results :
  (times_selected s (take n results) ≤ times_selected s results)%nat.
Proof.
  rewrite <- (take_drop n results) at 2. rewrite times_selected_app. lia.
Qed.

Lemma times_selected_once (s : loc) hs :
  NoDup hs → s ∈ hs → times_selected s (Some <$> hs) = 1%nat.
Proof.
  unfold times_selected. induction 1 as [|x hs Hx Hnd IH]; intros Hs.
  - by apply not_elem_of_nil in Hs.
  - rewrite fmap_cons, filter_cons.
    apply elem_of_cons in Hs as [->|Hs].
    + rewrite decide_True by done. simpl. f_equal.
      clear IH Hnd. induction hs as [|y hs IH]; [done|].
      apply not_elem_of_cons in Hx as [Hne Hx].
      rewrite fmap_cons, filter_cons, decide_False by congruence. by apply IH.
    + rewrite decide_False by (intros [= ->]; done). by apply IH.
Qed.

Lemma round_robin_n_balance_blocks (q r : nat) lb (s : loc) :
  NoDup (healthy_servers lb) → s ∈ healthy_servers lb →
  (r < length (healthy_servers lb))%nat →
  (q ≤ times_selected s (round_robin_n (q * length (healthy_servers lb) + r) lb).1
     ≤ q + 1)%nat
  ∧ (r = 0%nat →
     times_selected s (round_robin_n (q * length (healthy_servers lb) + r) lb).1
     = q).
Proof.
  revert lb. induction q as [|q IH]; intros lb Hnd Hs Hr.
  - assert (healthy_servers lb ≠ []) as Hne by (intros Hnil; rewrite Hnil in Hs;
      by apply not_elem_of_nil in Hs).
    simpl. split; [|by intros ->].
    rewrite round_robin_n_prefix by (done || lia).
    pose proof (times_selected_take s r
                  (round_robin_n (length (healthy_servers lb)) lb).1) as Hle.
    assert (times_selected s (round_robin_n (length (healthy_servers lb)) lb).1
            = 1%nat) as Hone.
    { unfold times_selected. rewrite (round_robin_n_cycle lb Hne).
      by apply times_selected_once. }
    lia.
  - assert (healthy_servers lb ≠ []) as Hne by (intros Hnil; rewrite Hnil in Hs;
      by apply not_elem_of_nil in Hs).
    replace (S q * length (healthy_servers lb) + r)%nat
      with (length (healthy_servers lb) + (q * length (healthy_servers lb) + r))%nat
      by lia.
    rewrite round_robin_n_app. simpl. rewrite times_selected_app.
    assert (times_selected s (round_robin_n (length (healthy_servers lb)) lb).1
            = 1%nat) as ->.
    { unfold times_selected. rewrite (round_robin_n_cycle lb Hne).
      by apply times_selected_once. }
    pose proof (round_robin_n_healthy (length (healthy_servers lb)) lb) as Hsame.
    specialize (IH (round_robin_n (length (healthy_servers lb)) lb).2).
    rewrite Hsame in IH. destruct (IH Hnd Hs Hr) as [Hbounds Hexact].
    split; [lia|]. intros Hr0. rewrite (Hexact Hr0). lia.
Qed.
End balance.

(** X17.  The rotation is balanced over any number of selections: with a
    pool of distinct servers and [N] of them healthy, [n] consecutive
    [_round_robin] calls return each healthy backend [n / N] or [n / N + 1]
    times, and exactly [n / N] times when [N] divides [n]. *)
Theorem round_robin_balance (n : nat) (lb : LoadLoad) (server : loc) :
  NoDup (servers lb) →
  server ∈ healthy_servers lb →
  let N := length (healthy_servers lb) in
  (n / N ≤ times_selected server (round_robin_n n lb).1 ≤ n / N + 1)%nat
  ∧ ((n `mod` N = 0)%nat →
     times_selected server (round_robin_n n lb).1 = (n / N)%nat).
Proof.
  intros Hnd Hs N.
  assert (N ≠ 0%nat) as HN.
  { subst N. destruct (healthy_servers lb); [|done].
    by apply not_elem_of_nil in Hs. }
  assert (NoDup (healthy_servers lb)) as Hnd' by by apply NoDup_filter.
  pose proof (Nat.mod_upper_bound n N HN) as Hr.
  pose proof (round_robin_n_balance_blocks (n / N) (n `mod` N) lb server
                Hnd' Hs Hr) as Hblocks.
  fold N in Hblocks.
  replace (n / N * N + n `mod` N)%nat with n in Hblocks; [done|].
  rewrite (Nat.div_mod_eq n N) at 1. lia.
Qed.

Lemma round_robin_balance_witness :
  NoDup (servers (__init__ one_down_heap SERVERS))
  ∧ 1%nat ∈ healthy_servers (__init__ one_down_heap SERVERS)
  ∧ (7 / 2 ≤ times_selected 1%nat
               (round_robin_n 7 (__init__ one_down_heap SERVERS)).1
       ≤ 7 / 2 + 1)%nat.
Proof.
  assert (NoDup (servers (__init__ one_down_heap SERVERS))) as Hnd
    by (apply (bool_decide_unpack (NoDup SERVERS)); vm_compute; exact I).
  assert (1%nat ∈ healthy_servers (__init__ one_down_heap SERVERS)) as Hs
    by (vm_compute; right; left).
  split; [exact Hnd|]. split; [exact Hs|].
  exact (proj1 (round_robin_balance 7 _ 1%nat Hnd Hs)).
Defined.

(** ** Backend addresses *)

Lemma append_cancel_l (a b c : string) : a +:+ b = a +:+ c → b = c.
Proof. induction a as [|x a IH]; simpl; [done|]. intros [= ?]. by apply IH. Qed.

(** X18.  On one host, the url tells the ports apart: two [Server]s with
    the same host and the same url have the same port, so backends on
    distinct ports of a host are never addressed by one url. *)
Theorem url_tells_ports_apart (s1 s2 : Server) :
  host s1 = host s2 → url s1 = url s2 → port s1 = port s2.
Proof.
  unfold url. intros -> Hurl.
  do 3 apply append_cancel_l in Hurl. by apply pretty_Z_inj in Hurl.
Qed.

Lemma url_tells_ports_apart_witness :
  host (sample_heap 0%nat) = host (one_down_heap 0%nat)
  ∧ url (sample_heap 0%nat) = url (one_down_heap 0%nat)
  ∧ port (sample_heap 0%nat) = port (one_down_heap 0%nat).
Proof.
  assert (host (sample_heap 0%nat) = host (one_down_heap 0%nat)) as Hh
    by reflexivity.
  assert (url (sample_heap 0%nat) = url (one_down_heap 0%nat)) as Hu
    by reflexivity.
  split; [exact Hh|]. split; [exact Hu|].
  exact (url_tells_ports_apart _ _ Hh Hu).
Defined.
